(** * Locator store, test-data resolver and secret cipher

    A shallow embedding of [lib/locators.py], [lib/data.py] and
    [lib/utils/cryptography.py], with the properties of the configuration
    core stated and proved over it.

    Python values are an inductive type; a [dict] inside a document is an
    association list in insertion order, the locator cache is a finite map.
    A Python [str] is a list of code points, [bytes] a list of numbers below
    256.  Exceptions are values: every operation returns either its result
    or the exception it raises, and the stateful operations also return the
    cache as the call leaves it. *)

From Stdlib Require Import NArith ZArith Lia String Ascii List Bool.
From stdpp Require Import base option list gmap.

Local Open Scope N_scope.

(** ** Strings, bytes and exceptions *)

(** A Python [str]: the sequence of its code points (each below 0x110000). *)
Definition str := list N.

(** A Python [bytes] object: numbers below 256. *)
Definition bytes := list N.

(** The [str] of an ASCII literal. *)
Definition py (s : string) : str :=
  List.map N_of_ascii (list_ascii_of_string s).

Definition is_str (s : str) : Prop := Forall (λ c, c < 0x110000) s.
Definition is_bytes (b : bytes) : Prop := Forall (λ c, c < 256) b.

(** The exceptions the three modules raise or let through.  [KeyError] and
    [FileNotFoundError] carry their argument and, for [raise ... from exc],
    the exception they were raised from ([__cause__]). *)
#[warnings="-register-all"]
Inductive exn : Type :=
| KeyError (arg : str) (cause : option exn)
| FileNotFoundError (arg : str) (cause : option exn)
| TypeError
| AttributeError
| YAMLError
| ValueError
| UnicodeEncodeError
| UnicodeDecodeError
| binascii_Error
| InvalidToken.

(** [except KeyError] catches exactly the [KeyError]s. *)
Definition is_KeyError (e : exn) : bool :=
  match e with KeyError _ _ => true | _ => false end.

(** [except ValueError]: the Unicode errors and [binascii.Error] are
    subclasses of [ValueError]. *)
Definition is_ValueError (e : exn) : bool :=
  match e with
  | ValueError | UnicodeEncodeError | UnicodeDecodeError | binascii_Error => true
  | _ => false
  end.

(** The outcome of a call: a value or a raised exception. *)
Inductive result (A : Type) : Type :=
| Ok (a : A)
| Raise (e : exn).
Arguments Ok {A} a.
Arguments Raise {A} e.

#[global] Instance result_ret : MRet result := λ A a, Ok a.
#[global] Instance result_bind : MBind result := λ A B f m,
  match m with Ok a => f a | Raise e => Raise e end.
#[global] Instance result_fmap : FMap result := λ A B f m,
  match m with Ok a => Ok (f a) | Raise e => Raise e end.

Definition is_Ok {A} (r : result A) : bool :=
  match r with Ok _ => true | Raise _ => false end.

(** ** UTF-8, as [str.encode()] and [bytes.decode()] use it *)

Definition is_surrogate (c : N) : bool := (0xD800 <=? c) && (c <? 0xE000).

(** The encoding of one code point; lone surrogates are refused. *)
Definition utf8_encode_char (c : N) : result bytes :=
  if c <? 0x80 then Ok [c]
  else if c <? 0x800 then Ok [0xC0 + c / 64; 0x80 + c mod 64]
  else if c <? 0x10000 then
    if is_surrogate c then Raise UnicodeEncodeError
    else Ok [0xE0 + c / 4096; 0x80 + (c / 64) mod 64; 0x80 + c mod 64]
  else Ok [0xF0 + c / 262144; 0x80 + (c / 4096) mod 64;
           0x80 + (c / 64) mod 64; 0x80 + c mod 64].

(** [s.encode()] *)
Fixpoint str_encode (s : str) : result bytes :=
  match s with
  | [] => Ok []
  | c :: s' =>
      b ← utf8_encode_char c;
      bs ← str_encode s';
      Ok (b ++ bs)
  end.

Definition is_cont (b : N) : bool := (0x80 <=? b) && (b <? 0xC0).

(** [b.decode()]: strict UTF-8, refusing truncated and over-long sequences,
    surrogates and code points above 0x10FFFF. *)
Fixpoint bytes_decode (b : bytes) : result str :=
  match b with
  | [] => Ok []
  | b1 :: r1 =>
      if b1 <? 0x80 then cons b1 <$> bytes_decode r1
      else if b1 <? 0xC2 then Raise UnicodeDecodeError
      else if b1 <? 0xE0 then
        match r1 with
        | b2 :: r2 =>
            if is_cont b2
            then cons ((b1 - 0xC0) * 64 + (b2 - 0x80)) <$> bytes_decode r2
            else Raise UnicodeDecodeError
        | _ => Raise UnicodeDecodeError
        end
      else if b1 <? 0xF0 then
        match r1 with
        | b2 :: b3 :: r3 =>
            let c := (b1 - 0xE0) * 4096 + (b2 - 0x80) * 64 + (b3 - 0x80) in
            if is_cont b2 && is_cont b3 && (0x800 <=? c) && negb (is_surrogate c)
            then cons c <$> bytes_decode r3
            else Raise UnicodeDecodeError
        | _ => Raise UnicodeDecodeError
        end
      else if b1 <? 0xF5 then
        match r1 with
        | b2 :: b3 :: b4 :: r4 =>
            let c := (b1 - 0xF0) * 262144 + (b2 - 0x80) * 4096
                     + (b3 - 0x80) * 64 + (b4 - 0x80) in
            if is_cont b2 && is_cont b3 && is_cont b4
               && (0x10000 <=? c) && (c <? 0x110000)
            then cons c <$> bytes_decode r4
            else Raise UnicodeDecodeError
        | _ => Raise UnicodeDecodeError
        end
      else Raise UnicodeDecodeError
  end.

(** ** Base64, as [base64.b64encode] and [base64.b64decode] compute it *)

Definition PAD : N := 61.

(** The character of a six-bit value in the standard alphabet. *)
Definition b64_char (v : N) : N :=
  if v <? 26 then 65 + v
  else if v <? 52 then 97 + (v - 26)
  else if v <? 62 then 48 + (v - 52)
  else if v =? 62 then 43
  else 47.

(** The six-bit value of an alphabet character, [None] for any other byte. *)
Definition b64_index (c : N) : option N :=
  if (65 <=? c) && (c <? 91) then Some (c - 65)
  else if (97 <=? c) && (c <? 123) then Some (c - 97 + 26)
  else if (48 <=? c) && (c <? 58) then Some (c - 48 + 52)
  else if c =? 43 then Some 62
  else if c =? 47 then Some 63
  else None.

Fixpoint b64encode (b : bytes) : bytes :=
  match b with
  | [] => []
  | [x] => [b64_char (x / 4); b64_char (x mod 4 * 16); PAD; PAD]
  | [x; y] =>
      [b64_char (x / 4); b64_char (x mod 4 * 16 + y / 16);
       b64_char (y mod 16 * 4); PAD]
  | x :: y :: z :: rest =>
      b64_char (x / 4) :: b64_char (x mod 4 * 16 + y / 16)
      :: b64_char (y mod 16 * 4 + z / 64) :: b64_char (z mod 64)
      :: b64encode rest
  end.

(** The decoding loop of [binascii.a2b_base64] in its default, non-strict
    mode: bytes outside the alphabet are skipped, a sufficient run of
    padding ends the parse, and leftover characters of an unfinished
    quadruple are an error. *)
Fixpoint a2b_base64 (data : bytes) (quad_pos : nat) (leftchar : N) (pads : nat)
  : result bytes :=
  match data with
  | [] =>
      match quad_pos with
      | O => Ok []
      | _ => Raise binascii_Error
      end
  | this_ch :: rest =>
      if this_ch =? PAD then
        if (2 <=? quad_pos)%nat then
          if (4 <=? quad_pos + S pads)%nat then Ok []
          else a2b_base64 rest quad_pos leftchar (S pads)
        else a2b_base64 rest quad_pos leftchar pads
      else
        match b64_index this_ch with
        | None => a2b_base64 rest quad_pos leftchar pads
        | Some v =>
            match quad_pos with
            | 0%nat => a2b_base64 rest 1 v 0
            | 1%nat => cons (leftchar * 4 + v / 16) <$> a2b_base64 rest 2 (v mod 16) 0
            | 2%nat => cons (leftchar * 16 + v / 4) <$> a2b_base64 rest 3 (v mod 4) 0
            | _ => cons (leftchar * 64 + v) <$> a2b_base64 rest 0 0 0
            end
        end
  end.

Definition b64decode (data : bytes) : result bytes := a2b_base64 data 0 0 0.

(** A Unicode scalar value: a code point that is not a surrogate. *)
Definition scalar_value (c : N) : Prop :=
  c < 0x110000 ∧ is_surrogate c = false.

Definition encodable (s : str) : Prop := Forall scalar_value s.

Definition is_ascii (s : list N) : Prop := Forall (λ c, c < 128) s.


(** ** Python values *)

(** What [yaml.safe_load] yields and the managers hold.  A [dict] lists its
    items in insertion order; its keys are strings.  A float is carried as
    its 64 bits and never inspected. *)
#[warnings="-register-all"]
Inductive value : Type :=
| VNone
| VBool (b : bool)
| VInt (z : Z)
| VFloat (bits : Z)
| VStr (s : str)
| VList (l : list value)
| VDict (d : list (str * value)).

(** Equality of strings, as [==] on [str]. *)
Definition str_eqb (a b : str) : bool := bool_decide (a = b).

(** The value under [key] in a [dict]'s items. *)
Fixpoint dict_get (d : list (str * value)) (key : str) : option value :=
  match d with
  | [] => None
  | (k, v) :: d' => if str_eqb k key then Some v else dict_get d' key
  end.

(** [s.startswith(prefix)] *)
Fixpoint startswith (s prefix : str) : bool :=
  match prefix, s with
  | [], _ => true
  | p :: prefix', c :: s' => (c =? p) && startswith s' prefix'
  | _ :: _, [] => false
  end.

(** [sub in s] for two strings: [sub] occurs in [s]. *)
Fixpoint str_contains (s sub : str) : bool :=
  startswith s sub ||
  match s with
  | [] => false
  | _ :: s' => str_contains s' sub
  end.

(** An index of a slice brought into [0 .. len], as Python clamps it. *)
Definition slice_index (len i : Z) : Z :=
  let i := if (i <? 0)%Z then (i + len)%Z else i in
  Z.max 0 (Z.min len i).

(** [s[start:stop]] *)
Definition py_slice {A} (s : list A) (start stop : Z) : list A :=
  let len := Z.of_nat (length s) in
  let lo := slice_index len start in
  let hi := slice_index len stop in
  take (Z.to_nat (hi - lo)) (drop (Z.to_nat lo) s).

(** [s.upper()] and [s.lower()] on the ASCII letters; the case mappings of
    Unicode outside ASCII are not modelled, such code points stay as they
    are. *)
Definition upper_char (c : N) : N :=
  if (97 <=? c) && (c <=? 122) then c - 32 else c.
Definition lower_char (c : N) : N :=
  if (65 <=? c) && (c <=? 90) then c + 32 else c.
Definition str_upper (s : str) : str := List.map upper_char s.
Definition str_lower (s : str) : str := List.map lower_char s.

(** [obj[key]] for a string [key]: a lookup in a [dict], a [TypeError] on
    anything else (lists and strings take integer indices, the other values
    are not subscriptable). *)
Definition getitem (obj : value) (key : str) : result value :=
  match obj with
  | VDict d =>
      match dict_get d key with
      | Some v => Ok v
      | None => Raise (KeyError key None)
      end
  | _ => Raise TypeError
  end.

(** [key in obj] for a string [key]. *)
Definition contains (obj : value) (key : str) : result bool :=
  match obj with
  | VDict d => Ok (bool_decide (is_Some (dict_get d key)))
  | VList l =>
      Ok (existsb (λ x, match x with VStr s => str_eqb s key | _ => false end) l)
  | VStr s => Ok (str_contains s key)
  | _ => Raise TypeError
  end.

(** [obj.upper()]: only a [str] has the method. *)
Definition upper (obj : value) : result str :=
  match obj with
  | VStr s => Ok (str_upper s)
  | _ => Raise AttributeError
  end.

(** [obj.get(key, default)]: only a [dict] has the method. *)
Definition dict_get_default (obj : value) (key : str) (dflt : value)
  : result value :=
  match obj with
  | VDict d => Ok (default dflt (dict_get d key))
  | _ => Raise AttributeError
  end.

(** ** [lib/utils/cryptography.py] *)

(** The [cryptography.fernet.Fernet] class, which the repository imports:
    [Fernet_new] is the constructor, refusing a malformed key with a
    [ValueError]; [fernet_encrypt] takes, besides the message, the
    initialisation vector and time stamp it draws; [fernet_decrypt] yields
    the message or, for [None], raises [InvalidToken]. *)
Class Fernet : Type := {
  fernet_t : Type;
  nonce : Type;
  Fernet_new : str → result fernet_t;
  fernet_encrypt : fernet_t → nonce → bytes → bytes;
  fernet_decrypt : fernet_t → bytes → option bytes;
}.

(** What the library promises of it: a token is a [bytes] object, and it
    decrypts under the key that made it. *)
Class FernetLaws (F : Fernet) : Prop := {
  fernet_encrypt_bytes k n m : is_bytes m → is_bytes (fernet_encrypt k n m);
  fernet_decrypt_encrypt k n m :
    is_bytes m → fernet_decrypt k (fernet_encrypt k n m) = Some m;
}.

Section Cipher.
Context {F : Fernet}.

Record SecretManager : Type := { fernet : fernet_t }.

(** [SecretManager.__init__] *)
Definition SecretManager_init (key : str) : result SecretManager :=
  f ← Fernet_new key;
  Ok {| fernet := f |}.

(** [SecretManager.encrypt]; [n] is what Fernet draws for this call. *)
Definition encrypt (self : SecretManager) (n : nonce) (data : str)
  : result str :=
  b ← str_encode data;
  bytes_decode (b64encode (fernet_encrypt (fernet self) n b)).

(** [SecretManager.decrypt] *)
Definition decrypt (self : SecretManager) (encrypted_data : str)
  : result str :=
  b ← str_encode encrypted_data;
  token ← b64decode b;
  match fernet_decrypt (fernet self) token with
  | Some m => bytes_decode m
  | None => Raise InvalidToken
  end.
End Cipher.

(** ** [lib/data.py] *)

(** What a path leads to: nothing, a file that is not YAML, or a file with
    the value [yaml.safe_load] parses from it. *)
Inductive source : Type :=
| Absent
| Unparsable
| Document (doc : value).

(** The directory the package lives in and the files below it. *)
Record filesystem : Type := {
  root : str;
  file_at : str → source;
}.

(** [os.path.join(a, b)] of two components on a POSIX system. *)
Definition os_path_join (a b : str) : str :=
  if startswith b (py "/") then b
  else match last a with
       | None => b
       | Some c => if c =? 47 then a ++ b else a ++ py "/" ++ b
       end.

Record FrameworkProperties : Type := {
  encryption_key : str;
  path_attachments_dir : str;
  test_data_file : str;
}.

Definition ENC_PREFIX : str := py "ENC[".

Section Data.
Context {F : Fernet}.

Record DataManager : Type := {
  data_file : str;
  secret_manager : SecretManager;
  _data : value;
}.

(** [DataManager._process_secrets], which needs only the cipher of the
    manager. *)
Fixpoint _process_secrets (sm : SecretManager) (data : value) : result value :=
  match data with
  | VDict d =>
      VDict <$>
        (fix items (d : list (str * value)) : result (list (str * value)) :=
           match d with
           | [] => Ok []
           | (key, value) :: d' =>
               v ← _process_secrets sm value;
               r ← items d';
               Ok ((key, v) :: r)
           end) d
  | VList l =>
      VList <$>
        (fix elements (l : list value) : result (list value) :=
           match l with
           | [] => Ok []
           | item :: l' =>
               v ← _process_secrets sm item;
               r ← elements l';
               Ok (v :: r)
           end) l
  | VStr s =>
      if startswith s ENC_PREFIX
      then VStr <$> decrypt sm (py_slice s 4 (-1))
      else Ok data
  | _ => Ok data
  end.

(** The two comprehensions of [_process_secrets], by themselves. *)
Fixpoint process_items (sm : SecretManager) (d : list (str * value))
  : result (list (str * value)) :=
  match d with
  | [] => Ok []
  | (key, value) :: d' =>
      v ← _process_secrets sm value;
      r ← process_items sm d';
      Ok ((key, v) :: r)
  end.

Fixpoint process_elements (sm : SecretManager) (l : list value)
  : result (list value) :=
  match l with
  | [] => Ok []
  | item :: l' =>
      v ← _process_secrets sm item;
      r ← process_elements sm l';
      Ok (v :: r)
  end.

(** [DataManager._load_data] *)
Definition _load_data (fs : filesystem) (path : str) (sm : SecretManager)
  : result value :=
  match file_at fs path with
  | Absent =>
      Raise (FileNotFoundError (py "Test data file not found: " ++ path) None)
  | Unparsable => Raise YAMLError
  | Document data => _process_secrets sm data
  end.

(** [DataManager.__init__] *)
Definition DataManager_init (fs : filesystem) (properties : FrameworkProperties)
  : result DataManager :=
  let path := os_path_join (root fs) (test_data_file properties) in
  sm ← SecretManager_init (encryption_key properties);
  data ← _load_data fs path sm;
  Ok {| data_file := path; secret_manager := sm; _data := data |}.

(** [DataManager.get_test_data] *)
Definition get_test_data (self : DataManager) (test_name : str) : result value :=
  dict_get_default (_data self) test_name (VDict []).

(** [DataManager.get_all_test_data] *)
Definition get_all_test_data (self : DataManager) : value := _data self.
End Data.

(** ** [lib/locators.py] *)

(** [lib.types.PlatformType] and the [value] of each member. *)
Inductive PlatformType : Type := ANDROID | IOS | LINUX | MAC | WINDOWS.

Definition PlatformType_value (p : PlatformType) : str :=
  match p with
  | ANDROID => py "android"
  | IOS => py "ios"
  | LINUX => py "linux"
  | MAC => py "mac"
  | WINDOWS => py "windows"
  end.

Inductive LocatorType : Type :=
| ID | NAME | CLASS_NAME | TAG_NAME | XPATH | CSS_SELECTOR | LINK_TEXT
| PARTIAL_LINK_TEXT | ACCESSIBILITY_ID | IMAGE | ANDROID_DATA_MATCHER
| ANDROID_UIAUTOMATOR | ANDROID_VIEWTAG | IOS_CLASS_CHAIN | IOS_PREDICATE
| CUSTOM.

(** The members of [LocatorType] by name, in the order of the class body. *)
Definition LocatorType_members : list (str * LocatorType) :=
  [ (py "ID", ID); (py "NAME", NAME); (py "CLASS_NAME", CLASS_NAME);
    (py "TAG_NAME", TAG_NAME); (py "XPATH", XPATH);
    (py "CSS_SELECTOR", CSS_SELECTOR); (py "LINK_TEXT", LINK_TEXT);
    (py "PARTIAL_LINK_TEXT", PARTIAL_LINK_TEXT);
    (py "ACCESSIBILITY_ID", ACCESSIBILITY_ID); (py "IMAGE", IMAGE);
    (py "ANDROID_DATA_MATCHER", ANDROID_DATA_MATCHER);
    (py "ANDROID_UIAUTOMATOR", ANDROID_UIAUTOMATOR);
    (py "ANDROID_VIEWTAG", ANDROID_VIEWTAG);
    (py "IOS_CLASS_CHAIN", IOS_CLASS_CHAIN);
    (py "IOS_PREDICATE", IOS_PREDICATE); (py "CUSTOM", CUSTOM) ].

Fixpoint member_by_name (ms : list (str * LocatorType)) (name : str)
  : option LocatorType :=
  match ms with
  | [] => None
  | (n, m) :: ms' => if str_eqb n name then Some m else member_by_name ms' name
  end.

(** [LocatorType[name]]: the member called [name], or [KeyError(name)]. *)
Definition LocatorType_getitem (name : str) : result LocatorType :=
  match member_by_name LocatorType_members name with
  | Some m => Ok m
  | None => Raise (KeyError name None)
  end.

(** The [value] of a member: the constant of the Appium client's [AppiumBy]
    the class body assigns to it. *)
Definition LocatorType_value (m : LocatorType) : str :=
  match m with
  | ID => py "id"
  | NAME => py "name"
  | CLASS_NAME => py "class name"
  | TAG_NAME => py "tag name"
  | XPATH => py "xpath"
  | CSS_SELECTOR => py "css selector"
  | LINK_TEXT => py "link text"
  | PARTIAL_LINK_TEXT => py "partial link text"
  | ACCESSIBILITY_ID => py "accessibility id"
  | IMAGE => py "-image"
  | ANDROID_DATA_MATCHER => py "-android datamatcher"
  | ANDROID_UIAUTOMATOR => py "-android uiautomator"
  | ANDROID_VIEWTAG => py "-android viewtag"
  | IOS_CLASS_CHAIN => py "-ios class chain"
  | IOS_PREDICATE => py "-ios predicate string"
  | CUSTOM => py "-custom"
  end.

Record LocatorManager : Type := {
  platform : PlatformType;
  _locators_cache : gmap str value;
  _locators_file : str;
}.

(** A method of [LocatorManager]: it returns or raises, and leaves the
    manager in a new state either way. *)
Definition M (A : Type) : Type := LocatorManager → result A * LocatorManager.

#[global] Instance M_ret : MRet M := λ A a self, (Ok a, self).
#[global] Instance M_bind : MBind M := λ A B f m self,
  match m self with
  | (Ok a, self') => f a self'
  | (Raise e, self') => (Raise e, self')
  end.

(** A computation without effect on the manager. *)
Definition lift {A} (r : result A) : M A := λ self, (r, self).

Definition raise {A} (e : exn) : M A := lift (Raise e).

(** [try: body except Exception as exc: handler exc] *)
Definition try_except {A} (body : M A) (handler : exn → M A) : M A :=
  λ self,
    match body self with
    | (Raise exc, self') => handler exc self'
    | r => r
    end.

(** [screen in self._locators_cache] *)
Definition cache_contains (screen : str) : M bool :=
  λ self, (Ok (bool_decide (is_Some (_locators_cache self !! screen))), self).

(** [self._locators_cache[screen]] *)
Definition cache_getitem (screen : str) : M value :=
  λ self,
    match _locators_cache self !! screen with
    | Some v => (Ok v, self)
    | None => (Raise (KeyError screen None), self)
    end.

(** [self._locators_cache[screen] = v] *)
Definition cache_setitem (screen : str) (v : value) : M unit :=
  λ self,
    (Ok (),
     {| platform := platform self;
        _locators_cache := <[screen := v]> (_locators_cache self);
        _locators_file := _locators_file self |}).

Section Locators.
Variable fs : filesystem.

(** [LocatorManager.__init__] *)
Definition LocatorManager_init (p : PlatformType) : LocatorManager :=
  {| platform := p;
     _locators_cache := ∅;
     _locators_file :=
       os_path_join (root fs)
         (py "locators_" ++ str_lower (PlatformType_value p) ++ py ".yml") |}.

(** [LocatorManager._load_locators] *)
Definition _load_locators : M value :=
  λ self,
    match file_at fs (_locators_file self) with
    | Absent =>
        (Raise
           (FileNotFoundError
              (py "Locators file for " ++ PlatformType_value (platform self)
               ++ py " not found.")
              (Some (FileNotFoundError
                       (py "[Errno 2] No such file or directory: '"
                        ++ _locators_file self ++ py "'") None))),
         self)
    | Unparsable => (Raise YAMLError, self)
    | Document doc => (Ok doc, self)
    end.

(** The message of the [KeyError] that [get_locator] raises. *)
Definition element_not_found (element screen : str) : str :=
  py "Element '" ++ element ++ py "' not found in screen '" ++ screen ++ py "'".

(** The message of the [KeyError] that [get_locators] raises. *)
Definition screen_not_found (screen : str) : str :=
  py "Screen '" ++ screen ++ py "' not found in locators".

(** [LocatorManager.get_locator] *)
Definition get_locator (screen element : str) : M (str * value) :=
  cached ← cache_contains screen;
  _ ← (if negb cached
       then doc ← _load_locators; cache_setitem screen doc
       else mret ());
  try_except
    (entries ← cache_getitem screen;
     locator_data ← lift (getitem entries element);
     ty ← lift (getitem locator_data (py "type"));
     name ← lift (upper ty);
     member ← lift (LocatorType_getitem name);
     v ← lift (getitem locator_data (py "value"));
     mret (LocatorType_value member, v))
    (λ exc,
       if is_KeyError exc
       then raise (KeyError (element_not_found element screen) (Some exc))
       else raise exc).

(** [LocatorManager.get_locators] *)
Definition get_locators (screen : str) : M value :=
  cached ← cache_contains screen;
  _ ← (if negb cached
       then
         locators ← _load_locators;
         present ← lift (contains locators screen);
         if negb present
         then raise (KeyError (screen_not_found screen) None)
         else
           entries ← lift (getitem locators screen);
           cache_setitem screen entries
       else mret ());
  cache_getitem screen.

(** [LocatorManager.set_locators] *)
Definition set_locators (screen : str) (locators : value) : M unit :=
  cache_setitem screen locators.
End Locators.

(** The manager with another cache. *)
Definition with_cache (c : gmap str value) (self : LocatorManager)
  : LocatorManager :=
  {| platform := platform self;
     _locators_cache := c;
     _locators_file := _locators_file self |}.

(** The body of the [try] block of [get_locator], on the value found in the
    cache under the screen. *)
Definition locate (entries : value) (element : str) : result (str * value) :=
  locator_data ← getitem entries element;
  ty ← getitem locator_data (py "type");
  name ← upper ty;
  member ← LocatorType_getitem name;
  v ← getitem locator_data (py "value");
  Ok (LocatorType_value member, v).

(** Its [except KeyError] clause. *)
Definition reraise {A} (screen element : str) (r : result A) : result A :=
  match r with
  | Raise exc =>
      if is_KeyError exc
      then Raise (KeyError
                    (py "Element '" ++ element ++ py "' not found in screen '"
                     ++ screen ++ py "'")
                    (Some exc))
      else Raise exc
  | _ => r
  end.

(** ** Documents: paths, markers, and what materialization may change *)

(** A step into a document: under a key of a mapping or at an index of a
    sequence. *)
Inductive step : Type :=
| Key (k : str)
| Index (i : nat).

(** [at_path v p x]: following [p] from [v] leads to [x]. *)
Inductive at_path : value → list step → value → Prop :=
| at_here v : at_path v [] v
| at_key d k v p x :
    (k, v) ∈ d → at_path v p x → at_path (VDict d) (Key k :: p) x
| at_index l i v p x :
    l !! i = Some v → at_path v p x → at_path (VList l) (Index i :: p) x.

(** A string leaf that the code takes for marked, one that starts with the
    prefix, somewhere in the document. *)
Fixpoint has_marker (v : value) : bool :=
  match v with
  | VStr s => startswith s ENC_PREFIX
  | VList l => existsb has_marker l
  | VDict d => existsb (λ kv, has_marker kv.2) d
  | _ => false
  end.

Section Materialized.
Context {F : Fernet}.
Variable sm : SecretManager.

(** [materialized v v']: [v'] is [v] with each string leaf that starts with
    the prefix replaced by the plaintext of what [s[4:-1]] cuts out of it,
    and nothing else changed: the same keys in the same order, the same
    number of elements, the same leaves elsewhere. *)
#[warnings="-register-all"]
Inductive materialized : value → value → Prop :=
| mat_secret s plain :
    startswith s ENC_PREFIX = true →
    decrypt sm (py_slice s 4 (-1)) = Ok plain →
    materialized (VStr s) (VStr plain)
| mat_str s :
    startswith s ENC_PREFIX = false → materialized (VStr s) (VStr s)
| mat_none : materialized VNone VNone
| mat_bool b : materialized (VBool b) (VBool b)
| mat_int z : materialized (VInt z) (VInt z)
| mat_float x : materialized (VFloat x) (VFloat x)
| mat_list l l' :
    Forall2 materialized l l' → materialized (VList l) (VList l')
| mat_dict d d' :
    Forall2 (λ kv kv', kv.1 = kv'.1 ∧ materialized kv.2 kv'.2) d d' →
    materialized (VDict d) (VDict d').

(** Every leaf of the document that starts with the prefix decrypts. *)
Definition secrets_resolve (v : value) : Prop :=
  ∀ p s, at_path v p (VStr s) →
         startswith s ENC_PREFIX = true →
         is_Ok (decrypt sm (py_slice s 4 (-1))) = true.

(** Some leaf of the document that starts with the prefix does not
    decrypt. *)
Definition secret_fails (v : value) : Prop :=
  ∃ p s e, at_path v p (VStr s)
           ∧ startswith s ENC_PREFIX = true
           ∧ decrypt sm (py_slice s 4 (-1)) = Raise e.
End Materialized.

(** ** A small cipher to run the definitions on *)

(** It has two keys; a token is a tag for the key, the drawn byte and the
    message. *)
Inductive toy_key : Type := KeyA | KeyB.

Definition toy_tag (k : toy_key) : N :=
  match k with KeyA => 65 | KeyB => 66 end.

Definition toy_new (key : str) : result toy_key :=
  if str_eqb key (py "A") then Ok KeyA
  else if str_eqb key (py "B") then Ok KeyB
  else Raise ValueError.

Definition toy_encrypt (k : toy_key) (n : N) (m : bytes) : bytes :=
  toy_tag k :: n mod 256 :: m.

Definition toy_decrypt (k : toy_key) (token : bytes) : option bytes :=
  match token with
  | tag :: _ :: m => if tag =? toy_tag k then Some m else None
  | _ => None
  end.

#[global] Instance toy_fernet : Fernet := {|
  fernet_t := toy_key;
  nonce := N;
  Fernet_new := toy_new;
  fernet_encrypt := toy_encrypt;
  fernet_decrypt := toy_decrypt;
|}.

Definition toy_manager (k : toy_key) : SecretManager := {| fernet := k |}.

(** ** Documents and managers of the examples *)

(** The locators document of the module's own tests. *)
Definition login_entries : value :=
  VDict [ (py "username",
           VDict [(py "type", VStr (py "id"));
                  (py "value", VStr (py "username_field"))]);
          (py "password",
           VDict [(py "type", VStr (py "xpath"));
                  (py "value", VStr (py "//input[@type='password']"))]) ].

Definition test_locators : value :=
  VDict [ (py "login_screen", login_entries) ].

(** A file system whose Android locators file holds [doc]. *)
Definition fs_with (doc : value) : filesystem :=
  {| root := py "/app";
     file_at := λ path,
       if str_eqb path (py "/app/locators_android.yml") then Document doc
       else Absent |}.

Definition android (doc : value) : LocatorManager :=
  LocatorManager_init (fs_with doc) ANDROID.

(** A file system whose test-data file holds [doc], and the properties of a
    manager that reads it under the first key of the small cipher. *)
Definition fs_data (doc : value) : filesystem :=
  {| root := py "/app";
     file_at := λ path,
       if str_eqb path (py "/app/test_data.yml") then Document doc
       else Absent |}.

Definition toy_properties : FrameworkProperties :=
  {| encryption_key := py "A";
     path_attachments_dir := py "attachments";
     test_data_file := py "test_data.yml" |}.

(** The documents of the module's tests of [_process_secrets]; ["QQdIaQ=="]
    is what the small cipher makes of ["Hi"] under its first key. *)
Definition secrets_doc : value :=
  VDict [ (py "plain", VStr (py "text"));
          (py "secret", VStr (py "ENC[QQdIaQ==]"));
          (py "nested", VDict [(py "secret", VStr (py "ENC[QQdIaQ==]"))]);
          (py "list", VList [VStr (py "plain"); VStr (py "ENC[QQdIaQ==]")]) ].

Definition plain_doc : value :=
  VDict [ (py "plain", VStr (py "text"));
          (py "nested", VDict [(py "value", VStr (py "plain"))]);
          (py "list", VList [VStr (py "plain"); VStr (py "also_plain")]) ].

(** Two documents with one undecryptable secret each, at different places. *)
Definition broken_doc_a : value :=
  VDict [ (py "a", VStr (py "ENC[A]")) ].

Definition broken_doc_b : value :=
  VDict [ (py "b", VList [VStr (py "plain"); VStr (py "ENC[A]")]) ].

(** A manager with [entries] put under [screen] by [set_locators]. *)
Definition seeded (screen : str) (entries : value) : LocatorManager :=
  (set_locators screen entries (android test_locators)).2.

(** A locators document with two screens: an empty one, and one whose only
    element is called ["type"]. *)
Definition two_screens : value :=
  VDict [ (py "login", VDict []);
          (py "home",
           VDict [(py "type",
                   VDict [(py "type", VStr (py "id"));
                          (py "value", VStr (py "a"))])]) ].

(** The entries of a screen whose one element declares a strategy that does
    not exist. *)
Definition bogus_entries : value :=
  VDict [ (py "BOGUS",
           VDict [(py "type", VStr (py "bogus"));
                  (py "value", VStr (py "x"))]) ].

(** ** [tests/pages/abstract_page.py] *)

(** The part of an [AbstractPage] that concerns locators: the manager its
    constructor builds and the mapping it takes from it with
    [get_locators(screen)].  The driver, the logger and the wait object of
    the page are the Appium client's and are left out. *)
Record AbstractPage : Type := {
  locator_manager : LocatorManager;
  locators : value;
}.

(** [AbstractPage.__init__], for the platform of [properties.webdriver]. *)
Definition AbstractPage_init (fs : filesystem) (p : PlatformType) (screen : str)
  : result AbstractPage :=
  match get_locators fs screen (LocatorManager_init fs p) with
  | (Ok entries, manager) =>
      Ok {| locator_manager := manager; locators := entries |}
  | (Raise e, _) => Raise e
  end.

(** [AbstractPage._get_locator] *)
Definition _get_locator (self : AbstractPage) (key : str) : result (value * value) :=
  entry ← getitem (locators self) key;
  ty ← getitem entry (py "type");
  entry' ← getitem (locators self) key;
  v ← getitem entry' (py "value");
  Ok (ty, v).

(** ** More of [lib/utils/cryptography.py] *)

(** A byte that [base64.b64decode] reads: a character of the alphabet or
    the padding character.  Every other byte it skips. *)
Definition b64_significant (c : N) : bool :=
  (c =? PAD) || bool_decide (is_Some (b64_index c)).

(** [base64.urlsafe_b64encode]: the standard encoding with [-] for [+] and
    [_] for [/]. *)
Definition urlsafe_char (c : N) : N :=
  if c =? 43 then 45 else if c =? 47 then 95 else c.

Definition urlsafe_b64encode (b : bytes) : bytes :=
  List.map urlsafe_char (b64encode b).

(** [Fernet.generate_key()] of the cryptography library: the URL-safe
    base64 of 32 bytes from [os.urandom], here [urandom]. *)
Definition Fernet_generate_key (urandom : bytes) : bytes :=
  urlsafe_b64encode urandom.

(** [SecretManager.generate_key], for the bytes that [os.urandom] yields. *)
Definition generate_key (urandom : bytes) : result str :=
  bytes_decode (Fernet_generate_key urandom).

(** A character of a Fernet key: a letter, a digit, [-], [_] or [=]. *)
Definition urlsafe_key_char (c : N) : bool :=
  ((65 <=? c) && (c <? 91)) || ((97 <=? c) && (c <? 123))
  || ((48 <=? c) && (c <? 58)) || (c =? 45) || (c =? 95) || (c =? 61).

(** ** [encrypt.py] *)

(** What [argparse] hands to [main]. *)
Record Namespace : Type := {
  args_key : option str;
  args_text : str;
  args_decrypt : bool;
}.

Inductive stream : Type := stdout | stderr.

(** How a run of [main] ends: it returns, [SystemExit] leaves it with a
    status, or another exception leaves it. *)
Inductive ending : Type :=
| Returned
| SysExit (code : Z)
| Uncaught (e : exn).

(** What [parser.parse_args()] comes to: the arguments, or the exit of
    [argparse] itself (status 2 after the usage message, for a command line
    it refuses; status 0 after the help text), with what it wrote. *)
Inductive parsed : Type :=
| Parsed (args : Namespace)
| ParserExit (status : Z) (written : list (stream * str)).

(** The truth value of [args.key]: false for [None] and for the empty
    string. *)
Definition key_given (k : option str) : bool :=
  match k with
  | Some (_ :: _) => true
  | _ => false
  end.

Definition is_InvalidToken (e : exn) : bool :=
  match e with InvalidToken => true | _ => false end.

(** A computation that prints: from the lines written so far to its outcome
    and the lines written then. *)
Definition io (A : Type) : Type :=
  list (stream * str) → result A * list (stream * str).

Definition io_bind {A B} (m : io A) (k : A → io B) : io B :=
  λ out, match m out with
         | (Ok a, out') => k a out'
         | (Raise e, out') => (Raise e, out')
         end.

Definition io_lift {A} (r : result A) : io A := λ out, (r, out).

Section Main.
Context {F : Fernet}.

(** [str(e)] of the exceptions of the libraries. *)
Variable exn_str : exn → str.

(** Whether a call of [print] raises, given what was written before: [None]
  when the line is written, the exception otherwise.  Standard output
  raises [UnicodeEncodeError] for a line its encoding does not have. *)
Variable print_raises : list (stream * str) → stream → str → option exn.

(** [print(line, file=file)]; a call that raises leaves no line. *)
Definition print (file : stream) (line : str) : io unit :=
λ out, match print_raises out file line with
       | None => (Ok tt, out ++ [(file, line)])
       | Some e => (Raise e, out)
       end.

(** The body of the [try] statement of [main]. *)
Definition main_try (args : Namespace) (key : str) (n : nonce) : io unit :=
io_bind (io_lift (SecretManager_init key)) (λ secret_manager,
  if args_decrypt args then
    io_bind (io_lift (decrypt secret_manager (args_text args))) (λ result,
      print stdout (py "Decrypted text: " ++ result))
  else
    io_bind (io_lift (encrypt secret_manager n (args_text args))) (λ encrypted,
      io_bind (if negb (key_given (args_key args))
               then print stdout (py "Generated key: " ++ key)
               else io_lift (Ok tt)) (λ _,
        print stdout (py "Encrypted text: " ++ encrypted)))).

(** [main], for what [parse_args] comes to, the bytes [os.urandom] yields if
  a key is generated and what Fernet draws if it encrypts: the lines
  written, in order, and how the run ends. *)
Definition main (parse_args : parsed) (urandom : bytes) (n : nonce)
: list (stream * str) * ending :=
match parse_args with
| ParserExit status written => (written, SysExit status)
| Parsed args =>
    if args_decrypt args && negb (key_given (args_key args)) then
      match print stderr (py "Error: Decryption requires a key") [] with
      | (Ok _, out) => (out, SysExit 1)
      | (Raise e, out) => (out, Uncaught e)
      end
    else
      match (if key_given (args_key args)
             then Ok (default [] (args_key args))
             else generate_key urandom) with
      | Raise e => ([], Uncaught e)
      | Ok key =>
          match main_try args key n [] with
          | (Ok _, out) => (out, Returned)
          | (Raise e, out) =>
              if is_ValueError e || is_InvalidToken e then
                match print stderr (py "Error: " ++ exn_str e) out with
                | (Ok _, out') => (out', SysExit 1)
                | (Raise e', out') => (out', Uncaught e')
                end
              else (out, Uncaught e)
          end
      end
end.
End Main.

(** A second small cipher, which takes any string for a key: a token is a
    tag for the key, the drawn byte and the message. *)
Definition key_tag (k : str) : N := fold_right N.add 0 k mod 256.

Definition tagged_fernet : Fernet := {|
  fernet_t := str;
  nonce := N;
  Fernet_new := λ key, Ok key;
  fernet_encrypt := λ k n m, key_tag k :: n mod 256 :: m;
  fernet_decrypt := λ k token,
    match token with
    | tag :: _ :: m => if tag =? key_tag k then Some m else None
    | _ => None
    end;
|}.

(** ** [lib/types.py] and [lib/models.py] *)

Inductive ApplicationType : Type := WEB | MOBILE_NATIVE | MOBILE_WEB.

(** [str(member)] of the two enumerations with members of their own. *)
Definition ApplicationType_str (a : ApplicationType) : str :=
  match a with
  | WEB => py "ApplicationType.WEB"
  | MOBILE_NATIVE => py "ApplicationType.MOBILE_NATIVE"
  | MOBILE_WEB => py "ApplicationType.MOBILE_WEB"
  end.

Definition PlatformType_str (p : PlatformType) : str :=
  match p with
  | ANDROID => py "PlatformType.ANDROID"
  | IOS => py "PlatformType.IOS"
  | LINUX => py "PlatformType.LINUX"
  | MAC => py "PlatformType.MAC"
  | WINDOWS => py "PlatformType.WINDOWS"
  end.

(** The body of an [Enum] class: its names with the values assigned, in
    order.  A name given a value that an earlier name has makes no member:
    it is an alias of the earlier one. *)
Definition enum_body : Type := list (str * str).

(** A member, by the name that defined it, and its value. *)
Record enum_member : Type := {
  member_name : str;
  member_value : str;
}.

(** The member with value [v]: the first name of the body that has it. *)
Fixpoint enum_by_value (body : enum_body) (v : str) : option enum_member :=
  match body with
  | [] => None
  | (n, v') :: body' =>
      if str_eqb v' v then Some {| member_name := n; member_value := v' |}
      else enum_by_value body' v
  end.

Fixpoint enum_value_of (body : enum_body) (name : str) : option str :=
  match body with
  | [] => None
  | (n, v) :: body' => if str_eqb n name then Some v else enum_value_of body' name
  end.

(** [cls.name]: the member the name stands for, [None] for a name the body
    does not have. *)
Definition enum_getattr (body : enum_body) (name : str) : option enum_member :=
  v ← enum_value_of body name; enum_by_value body v.

(** [list(cls)]: the members, without the aliases. *)
Definition enum_members (body : enum_body) : list enum_member :=
  omap (λ nv : str * str,
          match enum_by_value body nv.2 with
          | Some m => if str_eqb (member_name m) nv.1 then Some m else None
          | None => None
          end) body.

(** The class [ProviderType] that the module ends with: the second class
    statement of that name, which rebinds the name and gives the three names
    one value. *)
Definition ProviderType : enum_body :=
  [ (py "BITBAR", py "test"); (py "LOCAL", py "test"); (py "SAUCELABS", py "test") ].

Record ExecutionProperties : Type := {
  application_type : ApplicationType;
  provider : enum_member;
  log_level : str;
  test_grep : str;
  test_spec : str;
}.

Record BitbarOptions : Type := {
  bitbar_api_key : str;
  bitbar_app_id : str;
  bitbar_project : str;
  bitbar_testrun : str;
}.

Record SauceLabsOptions : Type := {
  saucelabs_name : str;
  saucelabs_username : str;
  saucelabs_access_key : str;
}.

Record AppiumProperties : Type := {
  appium_platform : PlatformType;
  platform_version : str;
  url : str;
  application_id : str;
  application_launch_activity : str;
  device_udid : str;
  device_name : str;
  bitbar_options : BitbarOptions;
  saucelabs_options : SauceLabsOptions;
}.

(** ** [lib/drivers.py] *)

Inductive driver_class : Type :=
| LocalAndroidWebDriver
| LocalIOSWebDriver
| RemoteBitBarWebDriver
| RemoteSauceWebDriver.

#[global] Instance ApplicationType_eq_dec : EqDecision ApplicationType.
Proof. solve_decision. Defined.
#[global] Instance PlatformType_eq_dec : EqDecision PlatformType.
Proof. solve_decision. Defined.
#[global] Instance enum_member_eq_dec : EqDecision enum_member.
Proof. solve_decision. Defined.

(** A key of [driver_classes]. *)
Definition driver_key : Type := ApplicationType * PlatformType * enum_member.

(** [d[key] = v] on the items of a [dict]: the value of a key that is there
    is replaced in its place, a new key goes to the end. *)
Fixpoint registry_set (d : list (driver_key * driver_class)) (key : driver_key)
    (v : driver_class) : list (driver_key * driver_class) :=
  match d with
  | [] => [(key, v)]
  | (k, x) :: d' =>
      if bool_decide (k = key) then (k, v) :: d' else (k, x) :: registry_set d' key v
  end.

(** [d.get(key)] *)
Fixpoint registry_get (d : list (driver_key * driver_class)) (key : driver_key)
  : option driver_class :=
  match d with
  | [] => None
  | (k, x) :: d' => if bool_decide (k = key) then Some x else registry_get d' key
  end.

Record WebDriverFactory : Type := {
  execution_properties : ExecutionProperties;
  driver_classes : list (driver_key * driver_class);
}.

(** [WebDriverFactory.register_driver] *)
Definition register_driver (self : WebDriverFactory) (app_type : ApplicationType)
    (key : PlatformType) (provider : enum_member) (cls : driver_class)
  : WebDriverFactory :=
  {| execution_properties := execution_properties self;
     driver_classes :=
       registry_set (driver_classes self) (app_type, key, provider) cls |}.

(** [WebDriverFactory.__init__]; [None] stands for the [AttributeError] of a
    name that [ProviderType] would not have. *)
Definition WebDriverFactory_init (properties : ExecutionProperties)
  : option WebDriverFactory :=
  let self := {| execution_properties := properties; driver_classes := [] |} in
  local ← enum_getattr ProviderType (py "LOCAL");
  let self := register_driver self MOBILE_NATIVE ANDROID local LocalAndroidWebDriver in
  local ← enum_getattr ProviderType (py "LOCAL");
  let self := register_driver self MOBILE_NATIVE IOS local LocalIOSWebDriver in
  bitbar ← enum_getattr ProviderType (py "BITBAR");
  let self := register_driver self MOBILE_NATIVE ANDROID bitbar RemoteBitBarWebDriver in
  saucelabs ← enum_getattr ProviderType (py "SAUCELABS");
  let self := register_driver self MOBILE_NATIVE IOS saucelabs RemoteSauceWebDriver in
  Some self.

(** What [create_driver] comes to: the session that the chosen class opens,
    or one of the exceptions it raises itself. *)
Inductive created (R : Type) : Type :=
| Session (r : R)
| Raised_ValueError (msg : str)
| Raised_NotImplementedError (msg : str)
| Raised_AttributeError.
Arguments Session {R} r.
Arguments Raised_ValueError {R} msg.
Arguments Raised_NotImplementedError {R} msg.
Arguments Raised_AttributeError {R}.

Section Drivers.
(** [driver_class(properties).get_driver()]: the options each class sets and
  the session the Appium client opens with them are the client's. *)
Variable R : Type.
Variable get_driver : driver_class → AppiumProperties → R.

(** [WebDriverFactory.create_driver] *)
Definition create_driver (self : WebDriverFactory) (properties : AppiumProperties)
: created R :=
let app_type := application_type (execution_properties self) in
let provider := provider (execution_properties self) in
if negb (bool_decide (app_type = MOBILE_NATIVE)) then
  Raised_ValueError (py "Unsupported application type: " ++ ApplicationType_str app_type)
else
  let key := (app_type, appium_platform properties, provider) in
  match registry_get (driver_classes self) key with
  | Some cls => Session (get_driver cls properties)
  | None =>
      match enum_getattr ProviderType (py "LOCAL"),
            enum_getattr ProviderType (py "BITBAR") with
      | Some local, Some bitbar =>
          if negb (bool_decide (provider = local) || bool_decide (provider = bitbar))
          then Raised_NotImplementedError
                 (member_name provider ++ py " provider not implemented")
          else Raised_ValueError
                 (py "Unsupported platform: "
                  ++ PlatformType_str (appium_platform properties))
      | _, _ => Raised_AttributeError
      end
  end.
End Drivers.

(** ** The marker as the specification words it *)

(** [s.endswith(suffix)] *)
Definition endswith (s suffix : str) : bool := startswith (rev s) (rev suffix).

(** The specification's EncryptedScalar: a string with the marker, the fixed
    prefix and the suffix delimiter, around a payload.  The code tests the
    prefix alone ([startswith s ENC_PREFIX]). *)
Definition spec_EncryptedScalar (s : str) : bool :=
  startswith s (py "ENC[") && endswith s (py "]").

(** A leaf that carries the specification's marker, somewhere in the
    document. *)
Fixpoint spec_has_marker (v : value) : bool :=
  match v with
  | VStr s => spec_EncryptedScalar s
  | VList l => existsb spec_has_marker l
  | VDict d => existsb (λ kv, spec_has_marker kv.2) d
  | _ => false
  end.

(** A string leaf with the prefix and without the suffix, somewhere in the
    document: where the code's test and the specification's marker part. *)
Fixpoint prefix_only (v : value) : bool :=
  match v with
  | VStr s => startswith s ENC_PREFIX && negb (endswith s (py "]"))
  | VList l => existsb prefix_only l
  | VDict d => existsb (λ kv, prefix_only kv.2) d
  | _ => false
  end.

Section SpecMaterialized.
Context {F : Fernet}.
Variable sm : SecretManager.

(** Materialization as the specification words it: an EncryptedScalar is
    replaced by the plaintext of the payload its marker wraps, and nothing
    else changes. *)
#[warnings="-register-all"]
Inductive spec_materialized : value → value → Prop :=
| smat_secret payload plain :
    decrypt sm payload = Ok plain →
    spec_materialized (VStr (py "ENC[" ++ payload ++ py "]")) (VStr plain)
| smat_str s :
    spec_EncryptedScalar s = false → spec_materialized (VStr s) (VStr s)
| smat_none : spec_materialized VNone VNone
| smat_bool b : spec_materialized (VBool b) (VBool b)
| smat_int z : spec_materialized (VInt z) (VInt z)
| smat_float x : spec_materialized (VFloat x) (VFloat x)
| smat_list l l' :
    Forall2 spec_materialized l l' → spec_materialized (VList l) (VList l')
| smat_dict d d' :
    Forall2 (λ kv kv', kv.1 = kv'.1 ∧ spec_materialized kv.2 kv'.2) d d' →
    spec_materialized (VDict d) (VDict d').
End SpecMaterialized.

(** ** The keys of Fernet *)






(** * Properties *)

(** ** Facts about the encodings *)

(** Decide every comparison in sight, keeping the cases [lia] cannot refute. *)
Ltac cmp_cases :=
  repeat match goal with
    | |- context [N.ltb ?a ?b] => destruct (N.ltb_spec a b); try lia
    | |- context [N.leb ?a ?b] => destruct (N.leb_spec a b); try lia
    | |- context [N.eqb ?a ?b] => destruct (N.eqb_spec a b); try lia
    end.

(** Name quotient and remainder of [a] by [b], with their defining facts. *)
Ltac divmod a b q r :=
  let Hd := fresh "Hd" in
  let Hm := fresh "Hm" in
  pose proof (N.div_mod a b ltac:(lia)) as Hd;
  pose proof (N.mod_lt a b ltac:(lia)) as Hm;
  set (q := a / b) in *; set (r := a mod b) in *;
  clearbody q r.

Lemma utf8_char_roundtrip c :
  scalar_value c →
  ∃ b, utf8_encode_char c = Ok b
       ∧ ∀ rest, bytes_decode (b ++ rest) = cons c <$> bytes_decode rest.
Proof.
  intros [Hlt Hs]. unfold utf8_encode_char. rewrite Hs.
  unfold is_surrogate in Hs.
  destruct (N.ltb_spec c 0x80).
  { eexists; split; [reflexivity|]. intros rest. simpl. cmp_cases. reflexivity. }
  destruct (N.ltb_spec c 0x800).
  { eexists; split; [reflexivity|]. intros rest.
    divmod c 64 q r. simpl. unfold is_cont. cmp_cases. simpl.
    do 2 f_equal. lia. }
  destruct (N.ltb_spec c 0x10000).
  { eexists; split; [reflexivity|]. intros rest.
    replace (c / 4096) with (c / 64 / 64) by (rewrite N.Div0.div_div; reflexivity).
    divmod c 64 q r. divmod q 64 q1 r1.
    assert (Hc : (0xE0 + q1 - 0xE0) * 4096 + (0x80 + r1 - 0x80) * 64
                 + (0x80 + r - 0x80) = c) by lia.
    simpl. rewrite Hc. unfold is_cont, is_surrogate.
    destruct (N.leb_spec 0xD800 c), (N.ltb_spec c 0xE000);
      simpl in Hs; try discriminate; cmp_cases; reflexivity. }
  eexists; split; [reflexivity|]. intros rest.
  replace (c / 262144) with (c / 64 / 64 / 64)
    by (rewrite !N.Div0.div_div; reflexivity).
  replace (c / 4096) with (c / 64 / 64) by (rewrite N.Div0.div_div; reflexivity).
  divmod c 64 q r. divmod q 64 q1 r1. divmod q1 64 q2 r2.
  assert (Hc : (0xF0 + q2 - 0xF0) * 262144 + (0x80 + r2 - 0x80) * 4096
               + (0x80 + r1 - 0x80) * 64 + (0x80 + r - 0x80) = c) by lia.
  simpl. rewrite Hc. unfold is_cont. cmp_cases. reflexivity.
Qed.

Lemma bytes_decode_ascii b : is_ascii b → bytes_decode b = Ok b.
Proof.
  induction 1 as [|c b Hc _ IH]; [reflexivity|].
  simpl. cmp_cases. rewrite IH. reflexivity.
Qed.

Lemma str_encode_ascii s : is_ascii s → str_encode s = Ok s.
Proof.
  induction 1 as [|c s Hc _ IH]; [reflexivity|].
  simpl. unfold utf8_encode_char. cmp_cases. rewrite IH. reflexivity.
Qed.

(** Whatever [encode] produces for a string without surrogates decodes back
    to that string. *)
Lemma str_encode_decode s :
  encodable s → ∃ b, str_encode s = Ok b ∧ bytes_decode b = Ok s.
Proof.
  induction 1 as [|c s Hc _ (bs & Hbs & Hdec)]; [by exists []|].
  destruct (utf8_char_roundtrip c Hc) as (b & Hb & Hrest).
  exists (b ++ bs). simpl. rewrite Hb, Hbs. split; [reflexivity|].
  rewrite Hrest, Hdec. reflexivity.
Qed.

(** [encode] fails exactly on a string holding a surrogate. *)
Lemma str_encode_surrogate s1 c s2 :
  encodable s1 → is_surrogate c = true →
  str_encode (s1 ++ c :: s2) = Raise UnicodeEncodeError.
Proof.
  intros H Hc. induction H as [|d s1 Hd _ IH]; simpl.
  - unfold utf8_encode_char. rewrite Hc. unfold is_surrogate in Hc.
    destruct (N.leb_spec 0xD800 c), (N.ltb_spec c 0xE000); try discriminate.
    cmp_cases. reflexivity.
  - destruct (utf8_char_roundtrip d Hd) as (b & -> & _). simpl.
    rewrite IH. reflexivity.
Qed.

(** Arithmetic with quotients and remainders by constants. *)
Ltac nlia := zify; Z.to_euclidean_division_equations; lia.

Lemma b64_index_char v : v < 64 → b64_index (b64_char v) = Some v.
Proof.
  intros Hv. unfold b64_char.
  destruct (N.ltb_spec v 26); [unfold b64_index; cmp_cases; simpl; f_equal; lia|].
  destruct (N.ltb_spec v 52); [unfold b64_index; cmp_cases; simpl; f_equal; lia|].
  destruct (N.ltb_spec v 62); [unfold b64_index; cmp_cases; simpl; f_equal; lia|].
  destruct (N.eqb_spec v 62); [subst; reflexivity|].
  replace v with 63 by lia. reflexivity.
Qed.

Lemma b64_char_not_pad v : (b64_char v =? PAD) = false.
Proof.
  unfold b64_char, PAD.
  destruct (N.ltb_spec v 26), (N.ltb_spec v 52), (N.ltb_spec v 62),
    (N.eqb_spec v 62); apply N.eqb_neq; lia.
Qed.

Lemma b64_char_ascii v : v < 64 → b64_char v < 128.
Proof. intros Hv. unfold b64_char. cmp_cases. Qed.

(** One alphabet character through the decoding loop. *)
Lemma a2b_base64_char v rest quad_pos leftchar pads :
  v < 64 →
  a2b_base64 (b64_char v :: rest) quad_pos leftchar pads =
    match quad_pos with
    | 0%nat => a2b_base64 rest 1 v 0
    | 1%nat => cons (leftchar * 4 + v / 16) <$> a2b_base64 rest 2 (v mod 16) 0
    | 2%nat => cons (leftchar * 16 + v / 4) <$> a2b_base64 rest 3 (v mod 4) 0
    | _ => cons (leftchar * 64 + v) <$> a2b_base64 rest 0 0 0
    end.
Proof.
  intros Hv. simpl. rewrite b64_char_not_pad, b64_index_char by done. reflexivity.
Qed.

Lemma list_ind3 {A} (P : list A → Prop) :
  P [] → (∀ x, P [x]) → (∀ x y, P [x; y]) →
  (∀ x y z l, P l → P (x :: y :: z :: l)) →
  ∀ l, P l.
Proof.
  intros H0 H1 H2 H3 l.
  cut (P l ∧ (∀ x, P (x :: l)) ∧ (∀ x y, P (x :: y :: l))); [tauto|].
  induction l as [|a l (IH0 & IH1 & IH2)]; auto.
Qed.

Lemma b64encode_ascii b : is_bytes b → is_ascii (b64encode b).
Proof.
  unfold is_bytes, is_ascii.
  induction b as [|x|x y|x y z l IH] using list_ind3; intros Hb; simpl.
  - constructor.
  - inversion_clear Hb.
    repeat constructor; try (apply b64_char_ascii; nlia); unfold PAD; lia.
  - inversion_clear Hb as [|?? Hx Hb']. inversion_clear Hb'.
    repeat constructor; try (apply b64_char_ascii; nlia); unfold PAD; lia.
  - inversion_clear Hb as [|?? Hx Hb1]. inversion_clear Hb1 as [|?? Hy Hb2].
    inversion_clear Hb2 as [|?? Hz Hl].
    repeat (constructor; [apply b64_char_ascii; nlia|]). auto.
Qed.

(** Decoding undoes encoding, whatever padding count the loop starts from. *)
Lemma a2b_base64_b64encode b :
  is_bytes b → ∀ pads, a2b_base64 (b64encode b) 0 0 pads = Ok b.
Proof.
  unfold is_bytes.
  induction b as [|x|x y|x y z l IH] using list_ind3; intros Hb pads.
  - reflexivity.
  - inversion_clear Hb as [|?? Hx _].
    cbn [b64encode]. rewrite !a2b_base64_char by nlia.
    simpl. do 2 f_equal. nlia.
  - inversion_clear Hb as [|?? Hx Hb1]. inversion_clear Hb1 as [|?? Hy _].
    cbn [b64encode]. rewrite !a2b_base64_char by nlia.
    simpl. f_equal. f_equal; [nlia|]. f_equal. nlia.
  - inversion_clear Hb as [|?? Hx Hb1]. inversion_clear Hb1 as [|?? Hy Hb2].
    inversion_clear Hb2 as [|?? Hz Hl].
    cbn [b64encode]. rewrite !a2b_base64_char by nlia.
    rewrite IH by done. simpl.
    f_equal. f_equal; [nlia|]. f_equal; [nlia|]. f_equal. nlia.
Qed.

Lemma b64decode_b64encode b : is_bytes b → b64decode (b64encode b) = Ok b.
Proof. intros Hb. apply a2b_base64_b64encode, Hb. Qed.

(** What [encode] produces is a [bytes] object. *)
Lemma utf8_encode_char_bytes c b :
  c < 0x110000 → utf8_encode_char c = Ok b → is_bytes b.
Proof.
  unfold utf8_encode_char, is_bytes. intros Hc.
  destruct (N.ltb_spec c 0x80); [intros [= <-]; repeat constructor; lia|].
  destruct (N.ltb_spec c 0x800); [intros [= <-]; repeat constructor; nlia|].
  destruct (N.ltb_spec c 0x10000).
  - destruct (is_surrogate c); [discriminate|].
    intros [= <-]; repeat constructor; nlia.
  - intros [= <-]; repeat constructor; nlia.
Qed.

Lemma str_encode_bytes s b : is_str s → str_encode s = Ok b → is_bytes b.
Proof.
  intros Hs. revert b. induction Hs as [|c s Hc _ IH]; simpl; intros b.
  - intros [= <-]. constructor.
  - destruct (utf8_encode_char c) as [b1|] eqn:E1; [|discriminate]. simpl.
    destruct (str_encode s) as [b2|]; [|discriminate]. simpl.
    intros [= <-]. apply Forall_app. split; [|by apply IH].
    eapply utf8_encode_char_bytes; eauto.
Qed.

(** ** The cipher *)

Lemma str_encode_raises s e : str_encode s = Raise e → e = UnicodeEncodeError.
Proof.
  revert e. induction s as [|c s IH]; simpl; intros e; [discriminate|].
  unfold utf8_encode_char.
  destruct (c <? 128); [|destruct (c <? 2048); [|destruct (c <? 65536);
    [destruct (is_surrogate c)|]]]; simpl;
    try (destruct (str_encode s); simpl; [discriminate|intros [= <-]; by apply IH]).
  by intros [= <-].
Qed.

Lemma fmap_cons_raises {A} (x : A) (r : result (list A)) e :
  cons x <$> r = Raise e → r = Raise e.
Proof. destruct r; simpl; [discriminate|by intros [= ->]]. Qed.

Lemma bytes_decode_raises b e : bytes_decode b = Raise e → e = UnicodeDecodeError.
Proof.
  revert e. remember (length b) as n eqn:Hn. revert b Hn.
  induction n as [n IH] using lt_wf_ind. intros b -> e.
  assert (IH' : ∀ r, (length r < length b)%nat → ∀ e,
            bytes_decode r = Raise e → e = UnicodeDecodeError)
    by (intros r Hr; by apply (IH (length r))).
  clear IH. rename IH' into IH. destruct b as [|b1 r1]; simpl; [discriminate|].
  assert (Hrec : ∀ r, (length r < length (b1 :: r1))%nat → ∀ x,
            cons x <$> bytes_decode r = Raise e → e = UnicodeDecodeError).
  { intros r Hr x Hx. eapply IH; [exact Hr|]. eapply fmap_cons_raises, Hx. }
  destruct (b1 <? 128); [apply Hrec; simpl; lia|].
  destruct (b1 <? 194); [by intros [= <-]|].
  destruct (b1 <? 224).
  { destruct r1 as [|b2 r2]; [by intros [= <-]|].
    destruct (is_cont b2); [apply Hrec; simpl; lia|by intros [= <-]]. }
  destruct (b1 <? 240).
  { destruct r1 as [|b2 [|b3 r3]]; try by intros [= <-].
    match goal with |- context [if ?c then _ else _] => destruct c end;
      [apply Hrec; simpl; lia|by intros [= <-]]. }
  destruct (b1 <? 245); [|by intros [= <-]].
  destruct r1 as [|b2 [|b3 [|b4 r4]]]; try by intros [= <-].
  match goal with |- context [if ?c then _ else _] => destruct c end;
    [apply Hrec; simpl; lia|by intros [= <-]].
Qed.

Lemma a2b_base64_raises data quad_pos leftchar pads e :
  a2b_base64 data quad_pos leftchar pads = Raise e → e = binascii_Error.
Proof.
  revert quad_pos leftchar pads.
  induction data as [|c data IH]; intros quad_pos leftchar pads;
    cbn [a2b_base64].
  - destruct quad_pos; [discriminate|by intros [= <-]].
  - destruct (c =? PAD).
    + destruct (2 <=? quad_pos)%nat; [|apply IH].
      destruct (4 <=? quad_pos + S pads)%nat; [discriminate|apply IH].
    + destruct (b64_index c) as [v|]; [|apply IH].
      destruct quad_pos as [|[|[|q]]]; try apply IH;
        intros H%fmap_cons_raises; eapply IH, H.
Qed.

Lemma b64decode_raises data e : b64decode data = Raise e → e = binascii_Error.
Proof. apply a2b_base64_raises. Qed.

Lemma encodable_is_str s : encodable s → is_str s.
Proof. intros H. eapply Forall_impl; [exact H|]. by intros c [Hc _]. Qed.

Section CipherFacts.
Context {F : Fernet}.

(** The exceptions [decrypt] can raise. *)
Lemma decrypt_raises (sm : SecretManager) c e :
  decrypt sm c = Raise e →
  e = UnicodeEncodeError ∨ e = binascii_Error ∨ e = InvalidToken
  ∨ e = UnicodeDecodeError.
Proof.
  unfold decrypt.
  destruct (str_encode c) as [b|e1] eqn:E1; simpl.
  2:{ intros [= <-]. left. eapply str_encode_raises, E1. }
  destruct (b64decode b) as [t|e2] eqn:E2; simpl.
  2:{ intros [= <-]. right; left. eapply b64decode_raises, E2. }
  destruct (fernet_decrypt (fernet sm) t) as [m|].
  - intros H%bytes_decode_raises. auto.
  - intros [= <-]. auto.
Qed.

Context {L : FernetLaws F}.

(** What [encrypt] returns for a string without surrogates, and that
    [decrypt] reads it back down to the Fernet token. *)
Lemma encrypt_transport (sm : SecretManager) n s :
  encodable s →
  ∃ b c, str_encode s = Ok b ∧ bytes_decode b = Ok s
         ∧ encrypt sm n s = Ok c
         ∧ str_encode c = Ok c
         ∧ b64decode c = Ok (fernet_encrypt (fernet sm) n b)
         ∧ fernet_decrypt (fernet sm) (fernet_encrypt (fernet sm) n b) = Some b.
Proof.
  intros Hs. destruct (str_encode_decode s Hs) as (b & Hb & Hdec).
  pose proof (str_encode_bytes s b (encodable_is_str s Hs) Hb) as Hbytes.
  pose proof (fernet_encrypt_bytes (fernet sm) n b Hbytes) as Htok.
  pose proof (b64encode_ascii _ Htok) as Hascii.
  exists b, (b64encode (fernet_encrypt (fernet sm) n b)).
  split; [exact Hb|]. split; [exact Hdec|].
  unfold encrypt. rewrite Hb. simpl.
  split; [by apply bytes_decode_ascii|].
  split; [by apply str_encode_ascii|].
  split; [by apply b64decode_b64encode|].
  by apply fernet_decrypt_encrypt.
Qed.
End CipherFacts.

Lemma toy_fernet_laws : FernetLaws toy_fernet.
Proof.
  split.
  - intros k n m Hm. repeat constructor; [destruct k; simpl; lia| |exact Hm].
    apply N.mod_lt. lia.
  - intros k n m _. simpl. unfold toy_decrypt, toy_encrypt.
    rewrite N.eqb_refl. reflexivity.
Qed.

Lemma str_surrogate_split s :
  is_str s →
  encodable s
  ∨ ∃ s1 c s2, s = s1 ++ c :: s2 ∧ encodable s1 ∧ is_surrogate c = true.
Proof.
  induction 1 as [|c s Hc _ [IH|(s1 & d & s2 & -> & H1 & Hd)]].
  - left. constructor.
  - destruct (is_surrogate c) eqn:E.
    + right. exists [], c, s. repeat split; [constructor|exact E].
    + left. constructor; [by split|exact IH].
  - destruct (is_surrogate c) eqn:E.
    + right. exists [], c, (s1 ++ d :: s2). repeat split; [constructor|exact E].
    + right. exists (c :: s1), d, s2. repeat split; [|exact Hd].
      constructor; [by split|exact H1].
Qed.

(** C6, as amended: under one key, [decrypt] gives back every plaintext
    that [encrypt] accepts, the empty string and strings of any other
    characters included; [encrypt] accepts exactly the strings that hold no
    lone surrogate code point, and raises [UnicodeEncodeError] on the
    others. *)
Theorem encrypt_decrypt_roundtrip {F : Fernet} {L : FernetLaws F}
    (sm : SecretManager) (n : nonce) (s : str) :
  is_str s →
  (encodable s → ∃ c, encrypt sm n s = Ok c ∧ decrypt sm c = Ok s)
  ∧ (¬ encodable s → encrypt sm n s = Raise UnicodeEncodeError).
Proof.
  intros Hstr. split.
  - intros Hs.
    destruct (encrypt_transport sm n s Hs) as (b & c & Hb & Hdec & Hc & Hcc & Ht & Hf).
    exists c. split; [exact Hc|].
    unfold decrypt. rewrite Hcc. simpl. rewrite Ht. simpl. rewrite Hf. exact Hdec.
  - intros Hs. destruct (str_surrogate_split s Hstr)
      as [?|(s1 & c & s2 & -> & H1 & Hc)]; [done|].
    unfold encrypt. rewrite str_encode_surrogate by done. reflexivity.
Qed.

(** The round trip at the string of special characters of the module's tests,
    under the small cipher. *)
Lemma encrypt_decrypt_roundtrip_witness :
  is_str (py "!@#$%^&*()_+-=[]{}|;:,.<>?")
  ∧ encodable (py "!@#$%^&*()_+-=[]{}|;:,.<>?")
  ∧ ∃ c, encrypt (toy_manager KeyA) 7 (py "!@#$%^&*()_+-=[]{}|;:,.<>?") = Ok c
         ∧ decrypt (toy_manager KeyA) c = Ok (py "!@#$%^&*()_+-=[]{}|;:,.<>?").
Proof.
  assert (Hs : is_str (py "!@#$%^&*()_+-=[]{}|;:,.<>?"))
    by (repeat constructor).
  assert (He : encodable (py "!@#$%^&*()_+-=[]{}|;:,.<>?"))
    by (repeat (constructor; [split; reflexivity|]); constructor).
  split; [exact Hs|]. split; [exact He|].
  exact (proj1 (encrypt_decrypt_roundtrip (L := toy_fernet_laws)
                  (toy_manager KeyA) 7 _ Hs) He).
Defined.

(** C6, the claim as it stands fails: a [str] may hold a lone surrogate, and
    [encrypt] raises on it, so there is nothing to decrypt. *)
Lemma encrypt_lone_surrogate :
  is_str [0xD800]
  ∧ encrypt (toy_manager KeyA) 7 [0xD800] = Raise UnicodeEncodeError
  ∧ (c ← encrypt (toy_manager KeyA) 7 [0xD800]; decrypt (toy_manager KeyA) c)
    = Raise UnicodeEncodeError.
Proof. split; [repeat constructor|split; reflexivity]. Qed.





(** ** Materialization *)

(** Induction over a value with the hypothesis for every element of a
    sequence and every value of a mapping. *)
Lemma value_ind_deep (P : value → Prop) :
  P VNone → (∀ b, P (VBool b)) → (∀ z, P (VInt z)) → (∀ x, P (VFloat x)) →
  (∀ s, P (VStr s)) →
  (∀ l, Forall P l → P (VList l)) →
  (∀ d, Forall (λ kv, P kv.2) d → P (VDict d)) →
  ∀ v, P v.
Proof.
  intros HN HB HI HF HS HL HD. fix IH 1.
  intros [|b|z|x|s|l|d];
    [exact HN|apply HB|apply HI|apply HF|apply HS| |].
  - apply HL. induction l as [|x l IHl]; constructor; [apply IH|exact IHl].
  - apply HD. induction d as [|[k x] d IHd]; constructor; [apply IH|exact IHd].
Qed.

Lemma py_slice_payload {A} (s : list A) :
  py_slice s 4 (-1) = removelast (drop 4 s).
Proof.
  unfold py_slice, slice_index. rewrite removelast_firstn_len.
  change (firstn ?n ?l) with (take n l). rewrite length_drop.
  replace (-1 <? 0)%Z with true by reflexivity.
  replace (4 <? 0)%Z with false by reflexivity.
  destruct (decide (length s ≤ 4)%nat) as [Hle|Hgt].
  - rewrite (drop_ge s 4) by lia.
    replace (Z.to_nat (Z.max 0 (Z.min (Z.of_nat (length s)) 4))) with (length s) by lia.
    by rewrite drop_all, !take_nil.
  - replace (Z.to_nat (Z.max 0 (Z.min (Z.of_nat (length s)) 4))) with 4%nat by lia.
    f_equal. lia.
Qed.

Section MaterializationFacts.
Context {F : Fernet}.
Variable sm : SecretManager.

Lemma process_secrets_dict d :
  _process_secrets sm (VDict d) = VDict <$> process_items sm d.
Proof.
  cbn [_process_secrets]. f_equal.
  induction d as [|[k v] d IH]; [reflexivity|].
  cbn [process_items]. rewrite <- IH. reflexivity.
Qed.

Lemma process_secrets_list l :
  _process_secrets sm (VList l) = VList <$> process_elements sm l.
Proof.
  cbn [_process_secrets]. f_equal.
  induction l as [|v l IH]; [reflexivity|].
  cbn [process_elements]. rewrite <- IH. reflexivity.
Qed.

Lemma process_secrets_str s :
  _process_secrets sm (VStr s) =
    if startswith s ENC_PREFIX
    then VStr <$> decrypt sm (py_slice s 4 (-1))
    else Ok (VStr s).
Proof. reflexivity. Qed.

(** How the two comprehensions come out. *)
Lemma process_elements_ok l l' :
  process_elements sm l = Ok l' →
  Forall2 (λ v v', _process_secrets sm v = Ok v') l l'.
Proof.
  revert l'. induction l as [|v l IH]; intros l'; cbn [process_elements].
  - intros [= <-]. constructor.
  - destruct (_process_secrets sm v) as [v'|] eqn:Ev; [|discriminate]. simpl.
    destruct (process_elements sm l) as [r|]; [|discriminate]. simpl.
    intros [= <-]. constructor; auto.
Qed.

Lemma process_items_ok d d' :
  process_items sm d = Ok d' →
  Forall2 (λ kv kv', kv.1 = kv'.1 ∧ _process_secrets sm kv.2 = Ok kv'.2) d d'.
Proof.
  revert d'. induction d as [|[k v] d IH]; intros d'; cbn [process_items].
  - intros [= <-]. constructor.
  - destruct (_process_secrets sm v) as [v'|] eqn:Ev; [|discriminate]. simpl.
    destruct (process_items sm d) as [r|]; [|discriminate]. simpl.
    intros [= <-]. constructor; auto.
Qed.

Lemma process_elements_raise l e :
  process_elements sm l = Raise e →
  ∃ i v, l !! i = Some v ∧ _process_secrets sm v = Raise e.
Proof.
  induction l as [|v l IH]; cbn [process_elements]; [discriminate|].
  destruct (_process_secrets sm v) as [v'|e1] eqn:Ev; simpl.
  - destruct (process_elements sm l) as [r|e2]; simpl; [discriminate|].
    intros [= <-]. destruct IH as (i & x & Hi & Hx); [done|].
    by exists (S i), x.
  - intros [= <-]. by exists 0%nat, v.
Qed.

Lemma process_items_raise d e :
  process_items sm d = Raise e →
  ∃ k v, (k, v) ∈ d ∧ _process_secrets sm v = Raise e.
Proof.
  induction d as [|[k v] d IH]; cbn [process_items]; [discriminate|].
  destruct (_process_secrets sm v) as [v'|e1] eqn:Ev; simpl.
  - destruct (process_items sm d) as [r|e2]; simpl; [discriminate|].
    intros [= <-]. destruct IH as (k' & x & Hi & Hx); [done|].
    exists k', x. split; [by right|done].
  - intros [= <-]. exists k, v. split; [by left|done].
Qed.

Lemma process_elements_fail l v e :
  v ∈ l → _process_secrets sm v = Raise e →
  ∃ e', process_elements sm l = Raise e'.
Proof.
  intros Hin Hv. induction Hin as [v l|v w l _ IH]; cbn [process_elements].
  - rewrite Hv. by eexists.
  - destruct (_process_secrets sm w); simpl; [|by eexists].
    destruct (IH Hv) as [e' ->]. by eexists.
Qed.

Lemma process_items_fail d k v e :
  (k, v) ∈ d → _process_secrets sm v = Raise e →
  ∃ e', process_items sm d = Raise e'.
Proof.
  intros Hin Hv. remember (k, v) as kv eqn:Hkv.
  induction Hin as [kv d|kv [k' w] d _ IH]; subst kv; cbn [process_items].
  - rewrite Hv. by eexists.
  - destruct (_process_secrets sm w); simpl; [|by eexists].
    destruct (IH eq_refl) as [e' ->]. by eexists.
Qed.

(** What comes out differs from what went in at the marked leaves only. *)
Lemma process_secrets_materialized v :
  ∀ v', _process_secrets sm v = Ok v' → materialized sm v v'.
Proof.
  induction v as [| | | |s|l IH|d IH] using value_ind_deep; intros v'.
  1-4: intros [= <-]; constructor.
  - rewrite process_secrets_str. destruct (startswith s ENC_PREFIX) eqn:E.
    + destruct (decrypt sm _) as [p|] eqn:Ed; [|discriminate].
      intros [= <-]. by constructor.
    + intros [= <-]. by constructor.
  - rewrite process_secrets_list.
    destruct (process_elements sm l) as [l'|] eqn:El; [|discriminate].
    intros [= <-]. constructor. apply process_elements_ok in El.
    induction El as [|v v' l l' Hv _ IHl]; constructor.
    + by apply (Forall_inv IH).
    + apply IHl. by apply Forall_inv_tail in IH.
  - rewrite process_secrets_dict.
    destruct (process_items sm d) as [d'|] eqn:El; [|discriminate].
    intros [= <-]. constructor. apply process_items_ok in El.
    induction El as [|kv kv' l l' [Hk Hv] _ IHl]; constructor.
    + split; [exact Hk|]. by apply (Forall_inv IH).
    + apply IHl. by apply Forall_inv_tail in IH.
Qed.

(** An exception of materialization is the exception of [decrypt] at a
    marked leaf. *)
Lemma process_secrets_raise v e :
  _process_secrets sm v = Raise e →
  ∃ p s, at_path v p (VStr s) ∧ startswith s ENC_PREFIX = true
         ∧ decrypt sm (py_slice s 4 (-1)) = Raise e.
Proof.
  induction v as [| | | |s|l IH|d IH] using value_ind_deep.
  1-4: discriminate.
  - rewrite process_secrets_str. destruct (startswith s ENC_PREFIX) eqn:E;
      [|discriminate].
    destruct (decrypt sm _) as [p|e'] eqn:Ed; [discriminate|].
    intros [= <-]. exists [], s. repeat split; [constructor|done..].
  - rewrite process_secrets_list.
    destruct (process_elements sm l) as [l'|e'] eqn:El; [discriminate|].
    intros [= <-]. apply process_elements_raise in El as (i & v & Hi & Hv).
    rewrite Forall_lookup in IH.
    destruct (IH i v Hi Hv) as (p & s & Hp & Hs & Hd).
    exists (Index i :: p), s. repeat split; [|done..]. by econstructor.
  - rewrite process_secrets_dict.
    destruct (process_items sm d) as [d'|e'] eqn:El; [discriminate|].
    intros [= <-]. apply process_items_raise in El as (k & v & Hi & Hv).
    rewrite Forall_forall in IH.
    destruct (IH (k, v) Hi Hv) as (p & s & Hp & Hs & Hd).
    exists (Key k :: p), s. repeat split; [|done..]. by econstructor.
Qed.

(** A marked leaf that does not decrypt makes materialization fail. *)
Lemma process_secrets_fail v p s e :
  at_path v p (VStr s) → startswith s ENC_PREFIX = true →
  decrypt sm (py_slice s 4 (-1)) = Raise e →
  ∃ e', _process_secrets sm v = Raise e'.
Proof.
  intros Hp Hs Hd. remember (VStr s) as x eqn:Hx.
  induction Hp as [v|d k v p x Hin _ IH|l i v p x Hi _ IH]; subst.
  - rewrite process_secrets_str, Hs, Hd. by eexists.
  - destruct (IH eq_refl) as [e1 He1].
    destruct (process_items_fail d k v e1 Hin He1) as [e' He'].
    rewrite process_secrets_dict, He'. by eexists.
  - destruct (IH eq_refl) as [e1 He1].
    apply list_elem_of_lookup_2 in Hi.
    destruct (process_elements_fail l v e1 Hi He1) as [e' He'].
    rewrite process_secrets_list, He'. by eexists.
Qed.

Lemma process_secrets_identity v :
  has_marker v = false → _process_secrets sm v = Ok v.
Proof.
  induction v as [| | | |s|l IH|d IH] using value_ind_deep; try reflexivity.
  - cbn [has_marker]. intros E. by rewrite process_secrets_str, E.
  - cbn [has_marker]. intros E. rewrite process_secrets_list.
    enough (process_elements sm l = Ok l) as -> by reflexivity.
    induction l as [|v l IHl]; [reflexivity|].
    cbn [existsb] in E. apply orb_false_elim in E as [Ev El].
    cbn [process_elements]. rewrite (Forall_inv IH Ev). simpl.
    rewrite IHl; [reflexivity| |exact El]. by apply Forall_inv_tail in IH.
  - cbn [has_marker]. intros E. rewrite process_secrets_dict.
    enough (process_items sm d = Ok d) as -> by reflexivity.
    induction d as [|[k v] d IHd]; [reflexivity|].
    cbn [existsb] in E. apply orb_false_elim in E as [Ev El].
    cbn [process_items].
    rewrite (Forall_inv IH Ev : _process_secrets sm v = Ok v). simpl.
    rewrite IHd; [reflexivity| |exact El]. by apply Forall_inv_tail in IH.
Qed.
End MaterializationFacts.

Section MaterializationClaims.
Context {F : Fernet}.
Variable sm : SecretManager.

Lemma process_secrets_ok_resolve v v' :
  _process_secrets sm v = Ok v' → secrets_resolve sm v.
Proof.
  intros Hv p s Hp Hs.
  destruct (decrypt sm (py_slice s 4 (-1))) as [x|e] eqn:Hd; [done|].
  destruct (process_secrets_fail sm v p s e Hp Hs Hd) as [e' He'].
  congruence.
Qed.

(** What [materialized] says of a mapping, a sequence and a document
    without markers. *)
Lemma materialized_dict_keys d v' :
  materialized sm (VDict d) v' → ∃ d', v' = VDict d' ∧ d'.*1 = d.*1.
Proof.
  intros H. inversion H as [| | | | | | |? d' Hd]; subst. clear H.
  exists d'. split; [done|].
  induction Hd as [|kv kv' l l' [Hk _] _ IH]; [reflexivity|].
  rewrite !fmap_cons, Hk, IH. reflexivity.
Qed.

Lemma materialized_list_length l v' :
  materialized sm (VList l) v' → ∃ l', v' = VList l' ∧ length l' = length l.
Proof.
  inversion 1 as [| | | | | |? l' Hl|]; subst. exists l'. split; [done|].
  symmetry. eapply Forall2_length, Hl.
Qed.

Lemma materialized_scalar v v' :
  materialized sm v v' → has_marker v = false →
  match v with VList _ | VDict _ => True | _ => v' = v end.
Proof. inversion 1; subst; simpl; try done. congruence. Qed.
End MaterializationClaims.

(** A string with the marker of the specification is its payload between
    the two delimiters, and the payload is what the code cuts out. *)
Lemma spec_EncryptedScalar_payload s :
  spec_EncryptedScalar s = true →
  s = py "ENC[" ++ py_slice s 4 (-1) ++ py "]".
Proof.
  unfold spec_EncryptedScalar, endswith. rewrite py_slice_payload.
  change (py "ENC[") with [69; 78; 67; 91].
  change (py "]") with [93]. change (rev [93]) with [93].
  intros [Hp Hs]%andb_true_iff.
  destruct s as [|a [|b [|c [|d r]]]]; cbn [startswith] in Hp;
    rewrite ?andb_false_r in Hp; try discriminate Hp.
  repeat (apply andb_true_iff in Hp as [?%N.eqb_eq Hp]). subst a b c d.
  destruct r as [|x r _] using rev_ind; [discriminate Hs|].
  change (69 :: 78 :: 67 :: 91 :: r ++ [x])
    with ([69; 78; 67; 91] ++ r ++ [x]) in Hs.
  rewrite !rev_app_distr in Hs. cbn [rev app startswith] in Hs.
  apply andb_true_iff in Hs as [->%N.eqb_eq _].
  change (drop 4 (69 :: 78 :: 67 :: 91 :: r ++ [93])) with (r ++ [93]).
  rewrite removelast_last. reflexivity.
Qed.

Section SpecMaterialization.
Context {F : Fernet}.
Variable sm : SecretManager.

(** Where no string has the prefix without the suffix, the code and the
    specification mark the same leaves. *)
Lemma has_marker_spec v :
  prefix_only v = false → spec_has_marker v = false → has_marker v = false.
Proof.
  induction v as [| | | |s|l IH|d IH] using value_ind_deep; try done.
  - cbn [prefix_only spec_has_marker has_marker].
    unfold spec_EncryptedScalar, ENC_PREFIX.
    destruct (startswith s (py "ENC[")); [|done].
    by destruct (endswith s (py "]")).
  - cbn [prefix_only spec_has_marker has_marker].
    induction IH as [|v l Hv _ IHl]; [done|]. cbn [existsb].
    intros [H1 H2]%orb_false_elim [H3 H4]%orb_false_elim.
    by rewrite Hv, IHl.
  - cbn [prefix_only spec_has_marker has_marker].
    induction IH as [|kv d Hv _ IHd]; [done|]. cbn [existsb].
    intros [H1 H2]%orb_false_elim [H3 H4]%orb_false_elim.
    by rewrite Hv, IHd.
Qed.

(** There, what comes out is materialized as the specification has it. *)
Lemma process_secrets_spec_materialized v :
  prefix_only v = false →
  ∀ v', _process_secrets sm v = Ok v' → spec_materialized sm v v'.
Proof.
  induction v as [| | | |s|l IH|d IH] using value_ind_deep; intros Hpre v'.
  1-4: intros [= <-]; constructor.
  - rewrite process_secrets_str. cbn [prefix_only] in Hpre.
    destruct (startswith s ENC_PREFIX) eqn:E.
    + destruct (endswith s (py "]")) eqn:E'; [|discriminate Hpre].
      assert (Hm : spec_EncryptedScalar s = true)
        by (unfold spec_EncryptedScalar; fold ENC_PREFIX; by rewrite E, E').
      apply spec_EncryptedScalar_payload in Hm.
      remember (py_slice s 4 (-1)) as payload eqn:Hpay.
      destruct (decrypt sm payload) as [p|] eqn:Ed; [|discriminate].
      intros [= <-]. rewrite Hm. by constructor.
    + intros [= <-]. constructor.
      unfold spec_EncryptedScalar. fold ENC_PREFIX. by rewrite E.
  - rewrite process_secrets_list.
    destruct (process_elements sm l) as [l'|] eqn:El; [|discriminate].
    intros [= <-]. constructor. apply process_elements_ok in El.
    cbn [prefix_only] in Hpre.
    induction El as [|v v' l l' Hv _ IHl]; constructor.
    + cbn [existsb] in Hpre. apply orb_false_elim in Hpre as [H1 _].
      by apply (Forall_inv IH).
    + cbn [existsb] in Hpre. apply orb_false_elim in Hpre as [_ H2].
      apply IHl; [|exact H2]. by apply Forall_inv_tail in IH.
  - rewrite process_secrets_dict.
    destruct (process_items sm d) as [d'|] eqn:El; [|discriminate].
    intros [= <-]. constructor. apply process_items_ok in El.
    cbn [prefix_only] in Hpre.
    induction El as [|kv kv' l l' [Hk Hv] _ IHl]; constructor.
    + cbn [existsb] in Hpre. apply orb_false_elim in Hpre as [H1 _].
      split; [exact Hk|]. by apply (Forall_inv IH).
    + cbn [existsb] in Hpre. apply orb_false_elim in Hpre as [_ H2].
      apply IHl; [|exact H2]. by apply Forall_inv_tail in IH.
Qed.
End SpecMaterialization.

(** C5, as amended: materialization keeps the shape of the document, and
    the leaves it changes are the strings that start with ["ENC["], with or
    without the closing bracket.  When every such leaf decrypts it returns
    a document that is [materialized] from the input (the same keys in the
    same order, sequences of the same length and order, every leaf the same
    except the strings with the prefix, which become the plaintext of what
    stands between their first four characters and their last), and a
    document in which no string has the prefix comes back as it is.  Where
    no string has the prefix without the suffix, this is the materialization
    of the specification: the leaves that change are those with its marker,
    and a document without its marker comes back as it is. *)
Theorem process_secrets_shape {F : Fernet} (sm : SecretManager) (v : value) :
  (secrets_resolve sm v →
   ∃ v', _process_secrets sm v = Ok v' ∧ materialized sm v v')
  ∧ (has_marker v = false → _process_secrets sm v = Ok v)
  ∧ (prefix_only v = false →
     (∀ v', _process_secrets sm v = Ok v' → spec_materialized sm v v')
     ∧ (spec_has_marker v = false → _process_secrets sm v = Ok v)).
Proof.
  split; [|split].
  - intros Hres. destruct (_process_secrets sm v) as [v'|e] eqn:Hv.
    + exists v'. split; [done|]. by apply process_secrets_materialized.
    + apply process_secrets_raise in Hv as (p & s & Hp & Hs & Hd).
      specialize (Hres p s Hp Hs). by rewrite Hd in Hres.
  - apply process_secrets_identity.
  - intros Hpre. split.
    + by apply process_secrets_spec_materialized.
    + intros Hm. by apply process_secrets_identity, has_marker_spec.
Qed.

(** The two documents of the module's tests: with three secrets, and
    without any. *)
Lemma process_secrets_shape_witness :
  (secrets_resolve (toy_manager KeyA) secrets_doc
   ∧ ∃ v', _process_secrets (toy_manager KeyA) secrets_doc = Ok v'
           ∧ materialized (toy_manager KeyA) secrets_doc v')
  ∧ (has_marker plain_doc = false
     ∧ _process_secrets (toy_manager KeyA) plain_doc = Ok plain_doc)
  ∧ (prefix_only secrets_doc = false
     ∧ spec_materialized (toy_manager KeyA) secrets_doc
         (VDict [ (py "plain", VStr (py "text"));
                  (py "secret", VStr (py "Hi"));
                  (py "nested", VDict [(py "secret", VStr (py "Hi"))]);
                  (py "list", VList [VStr (py "plain"); VStr (py "Hi")]) ]))
  ∧ (prefix_only plain_doc = false ∧ spec_has_marker plain_doc = false
     ∧ _process_secrets (toy_manager KeyA) plain_doc = Ok plain_doc).
Proof.
  assert (Hres : secrets_resolve (toy_manager KeyA) secrets_doc)
    by (eapply process_secrets_ok_resolve; reflexivity).
  split; [split|split; [split|split; [split|split; [|split]]]].
  - exact Hres.
  - exact (proj1 (process_secrets_shape (toy_manager KeyA) secrets_doc) Hres).
  - reflexivity.
  - exact (proj1 (proj2 (process_secrets_shape (toy_manager KeyA) plain_doc))
             eq_refl).
  - reflexivity.
  - exact (proj1 (proj2 (proj2 (process_secrets_shape (toy_manager KeyA)
                                  secrets_doc)) eq_refl) _ eq_refl).
  - reflexivity.
  - reflexivity.
  - exact (proj2 (proj2 (proj2 (process_secrets_shape (toy_manager KeyA)
                                  plain_doc)) eq_refl) eq_refl).
Defined.

(** C5, the claim as it stands fails: the code takes the prefix alone for
    the marker.  A string with the prefix and no closing bracket carries no
    marker of the specification, and still materialization changes it, here
    to the plaintext of the payload without its last character; and a plain
    sentence that begins with the prefix makes materialization raise. *)
Lemma materialization_changes_unmarked :
  spec_has_marker (VDict [(py "k", VStr (py "ENC[QQdIaQ==X"))]) = false
  ∧ _process_secrets (toy_manager KeyA) (VDict [(py "k", VStr (py "ENC[QQdIaQ==X"))])
    = Ok (VDict [(py "k", VStr (py "Hi"))])
  ∧ spec_has_marker (VDict [(py "note", VStr (py "ENC[ is our prefix"))]) = false
  ∧ _process_secrets (toy_manager KeyA)
      (VDict [(py "note", VStr (py "ENC[ is our prefix"))])
    = Raise binascii_Error.
Proof. repeat split. Qed.

(** C4, as amended: when some marked leaf of the document does not decrypt,
    materialization raises and with it the construction of the manager: no
    manager is built, with no part of the tree resolved or left encrypted.
    The exception is the one [decrypt] raised at a marked leaf, let through
    as it is ([UnicodeEncodeError], [binascii.Error], [InvalidToken] or
    [UnicodeDecodeError]); it names no path. *)
Theorem init_aborts_on_secret {F : Fernet} (fs : filesystem)
    (properties : FrameworkProperties) (sm : SecretManager) (doc : value) :
  SecretManager_init (encryption_key properties) = Ok sm →
  file_at fs (os_path_join (root fs) (test_data_file properties)) = Document doc →
  secret_fails sm doc →
  ∃ e, _process_secrets sm doc = Raise e
       ∧ DataManager_init fs properties = Raise e
       ∧ (∃ p s, at_path doc p (VStr s) ∧ startswith s ENC_PREFIX = true
                 ∧ decrypt sm (py_slice s 4 (-1)) = Raise e)
       ∧ (e = UnicodeEncodeError ∨ e = binascii_Error ∨ e = InvalidToken
          ∨ e = UnicodeDecodeError).
Proof.
  intros Hsm Hfile (p & s & e0 & Hp & Hs & Hd).
  destruct (process_secrets_fail sm doc p s e0 Hp Hs Hd) as [e He].
  exists e. split; [exact He|]. split.
  - unfold DataManager_init, _load_data. rewrite Hsm. simpl.
    rewrite Hfile, He. reflexivity.
  - destruct (process_secrets_raise sm doc e He) as (p' & s' & Hp' & Hs' & Hd').
    split; [by exists p', s'|]. eapply decrypt_raises, Hd'.
Qed.

(** The construction over a document whose secret, at index 1 of the list
    under ["b"], is not base64. *)
Lemma init_aborts_on_secret_witness :
  SecretManager_init (encryption_key toy_properties) = Ok (toy_manager KeyA)
  ∧ file_at (fs_data broken_doc_b)
      (os_path_join (root (fs_data broken_doc_b)) (test_data_file toy_properties))
    = Document broken_doc_b
  ∧ secret_fails (toy_manager KeyA) broken_doc_b
  ∧ ∃ e, _process_secrets (toy_manager KeyA) broken_doc_b = Raise e
       ∧ DataManager_init (fs_data broken_doc_b) toy_properties = Raise e
       ∧ (∃ p s, at_path broken_doc_b p (VStr s)
                 ∧ startswith s ENC_PREFIX = true
                 ∧ decrypt (toy_manager KeyA) (py_slice s 4 (-1)) = Raise e)
       ∧ (e = UnicodeEncodeError ∨ e = binascii_Error ∨ e = InvalidToken
          ∨ e = UnicodeDecodeError).
Proof.
  assert (Hfail : secret_fails (toy_manager KeyA) broken_doc_b).
  { exists [Key (py "b"); Index 1], (py "ENC[A]"), binascii_Error.
    split; [|split; reflexivity].
    eapply at_key; [apply list_elem_of_here|].
    eapply at_index; [reflexivity|]. apply at_here. }
  split; [reflexivity|]. split; [reflexivity|]. split; [exact Hfail|].
  exact (init_aborts_on_secret (fs_data broken_doc_b) toy_properties
           (toy_manager KeyA) broken_doc_b eq_refl eq_refl Hfail).
Defined.

(** C4, the claim as it stands fails: the exception does not tell where the
    secret was.  A secret under ["a"] and one at index 1 under ["b"] abort
    the construction with the same exception. *)
Lemma init_error_names_no_path :
  DataManager_init (fs_data broken_doc_a) toy_properties = Raise binascii_Error
  ∧ DataManager_init (fs_data broken_doc_b) toy_properties = Raise binascii_Error.
Proof. split; reflexivity. Qed.

(** C10: a string that starts with ["ENC["] is taken for an encrypted scalar
    whatever it ends with: its first four characters and its last one are
    cut off and the rest is decrypted; no closing bracket is looked for. *)
Theorem process_secrets_marker {F : Fernet} (sm : SecretManager) (s : str) :
  startswith s ENC_PREFIX = true →
  py_slice s 4 (-1) = removelast (drop 4 s)
  ∧ _process_secrets sm (VStr s) = VStr <$> decrypt sm (removelast (drop 4 s)).
Proof.
  intros Hs. split; [apply py_slice_payload|].
  rewrite process_secrets_str, Hs, py_slice_payload. reflexivity.
Qed.

(** A marked string that ends in [X], not in a bracket. *)
Lemma process_secrets_marker_witness :
  startswith (py "ENC[QQdIaQ==X") ENC_PREFIX = true
  ∧ removelast (drop 4 (py "ENC[QQdIaQ==X")) = py "QQdIaQ=="
  ∧ _process_secrets (toy_manager KeyA) (VStr (py "ENC[QQdIaQ==X"))
    = VStr <$> decrypt (toy_manager KeyA) (removelast (drop 4 (py "ENC[QQdIaQ==X"))).
Proof.
  split; [reflexivity|]. split; [reflexivity|].
  exact (proj2 (process_secrets_marker (toy_manager KeyA) (py "ENC[QQdIaQ==X")
                  eq_refl)).
Defined.

(** ** The locator store *)

Lemma with_cache_same self : with_cache (_locators_cache self) self = self.
Proof. by destruct self. Qed.

Section LocatorFacts.
Variable fs : filesystem.

(** [get_locator] on a screen the cache holds. *)
Lemma get_locator_cached self screen element entries :
  _locators_cache self !! screen = Some entries →
  get_locator fs screen element self
  = (reraise screen element (locate entries element), self).
Proof.
  intros Hc. unfold get_locator, mbind, M_bind, cache_contains, try_except,
    cache_getitem, lift, mret, M_ret, locate, reraise, raise, lift.
  rewrite Hc. rewrite bool_decide_eq_true_2 by done. cbn [negb].
  rewrite Hc.
  destruct (getitem entries element) as [ld|[]]; try reflexivity. simpl.
  destruct (getitem ld (py "type")) as [ty|[]]; try reflexivity. simpl.
  destruct (upper ty) as [name|[]]; try reflexivity. simpl.
  destruct (LocatorType_getitem name) as [m|[]]; try reflexivity. simpl.
  destruct (getitem ld (py "value")) as [v|[]]; reflexivity.
Qed.

(** [get_locator] on a screen the cache does not hold. *)
Lemma get_locator_uncached self screen element :
  _locators_cache self !! screen = None →
  get_locator fs screen element self =
    match _load_locators fs self with
    | (Ok doc, _) =>
        (reraise screen element (locate doc element),
         with_cache (<[screen := doc]> (_locators_cache self)) self)
    | (Raise e, _) => (Raise e, self)
    end.
Proof.
  intros Hc. unfold get_locator, mbind, M_bind, cache_contains, try_except,
    cache_getitem, lift, mret, M_ret, locate, reraise, raise, lift.
  rewrite Hc. rewrite bool_decide_eq_false_2 by (by intros [? ?]).
  cbn [negb]. unfold _load_locators.
  destruct (file_at fs (_locators_file self)) as [| |doc]; try reflexivity.
  unfold cache_setitem. cbn [_locators_cache]. rewrite lookup_insert_eq.
  fold (with_cache (<[screen:=doc]> (_locators_cache self)) self).
  destruct (getitem doc element) as [ld|[]]; try reflexivity. simpl.
  destruct (getitem ld (py "type")) as [ty|[]]; try reflexivity. simpl.
  destruct (upper ty) as [name|[]]; try reflexivity. simpl.
  destruct (LocatorType_getitem name) as [m|[]]; try reflexivity. simpl.
  destruct (getitem ld (py "value")) as [v|[]]; reflexivity.
Qed.

(** [get_locators] on a screen the cache holds. *)
Lemma get_locators_cached self screen entries :
  _locators_cache self !! screen = Some entries →
  get_locators fs screen self = (Ok entries, self).
Proof.
  intros Hc. unfold get_locators, mbind, M_bind, cache_contains, cache_getitem.
  rewrite Hc. rewrite bool_decide_eq_true_2 by done. cbn [negb mret M_ret].
  rewrite Hc. reflexivity.
Qed.

(** [get_locators] on a screen the cache does not hold. *)
Lemma get_locators_uncached self screen :
  _locators_cache self !! screen = None →
  get_locators fs screen self =
    match _load_locators fs self with
    | (Ok locators, _) =>
        match contains locators screen with
        | Ok true =>
            match getitem locators screen with
            | Ok entries =>
                (Ok entries,
                 with_cache (<[screen := entries]> (_locators_cache self)) self)
            | Raise e => (Raise e, self)
            end
        | Ok false => (Raise (KeyError (screen_not_found screen) None), self)
        | Raise e => (Raise e, self)
        end
    | (Raise e, _) => (Raise e, self)
    end.
Proof.
  intros Hc. unfold get_locators, mbind, M_bind, cache_contains.
  rewrite Hc. rewrite bool_decide_eq_false_2 by (by intros [? ?]).
  cbn [negb]. unfold _load_locators.
  destruct (file_at fs (_locators_file self)) as [| |doc]; try reflexivity.
  unfold lift, raise, lift.
  destruct (contains doc screen) as [[]|]; try reflexivity. cbn [negb].
  destruct (getitem doc screen) as [entries|]; try reflexivity.
  unfold cache_setitem, cache_getitem. cbn [_locators_cache].
  rewrite lookup_insert_eq. reflexivity.
Qed.
End LocatorFacts.

(** C1, the code against the claim: on a screen it has not cached,
    [get_locator] stores the whole document under the screen and then looks
    the element up in that, not in the screen's own mapping.  For the
    document that defines ["login_screen"] with element ["username"],
    [get_locator("login_screen", "username")] raises [KeyError] where the
    claim has it return [("id", "username_field")]; asked after
    [get_locators] has cached the screen, it does return that pair. *)
Theorem get_locator_first_touch :
  get_locator (fs_with test_locators) (py "login_screen") (py "username")
    (android test_locators)
  = (Raise (KeyError (element_not_found (py "username") (py "login_screen"))
              (Some (KeyError (py "username") None))),
     with_cache {[ py "login_screen" := test_locators ]} (android test_locators))
  ∧ (get_locators (fs_with test_locators) (py "login_screen")
       (android test_locators)).1 = Ok login_entries
  ∧ (get_locator (fs_with test_locators) (py "login_screen") (py "username")
       (get_locators (fs_with test_locators) (py "login_screen")
          (android test_locators)).2).1
    = Ok (LocatorType_value ID, VStr (py "username_field")).
Proof.
  split; [|split].
  - rewrite get_locator_uncached by reflexivity. reflexivity.
  - reflexivity.
  - reflexivity.
Qed.

(** C9: a screen first touched through [get_locator] has the whole
    document stored under its name, whatever the call returns; a later
    [get_locators] for it returns that document unchecked, also when the
    document has no such screen and [get_locators] by itself would raise;
    and [get_locators] by itself stores the screen's own mapping under the
    same key. *)
Theorem first_touch_caches_document (fs : filesystem) (self : LocatorManager)
    (screen element : str) (doc : value) :
  _locators_cache self !! screen = None →
  file_at fs (_locators_file self) = Document doc →
  ∃ r self',
    get_locator fs screen element self = (r, self')
    ∧ _locators_cache self' = <[screen := doc]> (_locators_cache self)
    ∧ get_locators fs screen self' = (Ok doc, self')
    ∧ (contains doc screen = Ok false →
       get_locators fs screen self
       = (Raise (KeyError (screen_not_found screen) None), self))
    ∧ (∀ entries, contains doc screen = Ok true →
         getitem doc screen = Ok entries →
         get_locators fs screen self
         = (Ok entries,
            with_cache (<[screen := entries]> (_locators_cache self)) self)).
Proof.
  intros Hc Hfile.
  exists (reraise screen element (locate doc element)),
         (with_cache (<[screen := doc]> (_locators_cache self)) self).
  split; [|split; [|split; [|split]]].
  - rewrite get_locator_uncached by done. unfold _load_locators.
    by rewrite Hfile.
  - reflexivity.
  - apply get_locators_cached. cbn [_locators_cache with_cache].
    apply lookup_insert_eq.
  - intros Hno. rewrite get_locators_uncached by done. unfold _load_locators.
    by rewrite Hfile, Hno.
  - intros entries Hin Hget. rewrite get_locators_uncached by done.
    unfold _load_locators. by rewrite Hfile, Hin, Hget.
Qed.

(** The screen ["home"], which the document of the tests does not have. *)
Lemma first_touch_caches_document_witness :
  _locators_cache (android test_locators) !! py "home" = None
  ∧ file_at (fs_with test_locators) (_locators_file (android test_locators))
    = Document test_locators
  ∧ contains test_locators (py "home") = Ok false
  ∧ ∃ r self',
      get_locator (fs_with test_locators) (py "home") (py "title")
        (android test_locators) = (r, self')
      ∧ _locators_cache self'
        = <[py "home" := test_locators]> (_locators_cache (android test_locators))
      ∧ get_locators (fs_with test_locators) (py "home") self'
        = (Ok test_locators, self')
      ∧ (contains test_locators (py "home") = Ok false →
         get_locators (fs_with test_locators) (py "home") (android test_locators)
         = (Raise (KeyError (screen_not_found (py "home")) None),
            android test_locators))
      ∧ (∀ entries, contains test_locators (py "home") = Ok true →
           getitem test_locators (py "home") = Ok entries →
           get_locators (fs_with test_locators) (py "home") (android test_locators)
           = (Ok entries,
              with_cache (<[py "home" := entries]>
                            (_locators_cache (android test_locators)))
                (android test_locators))).
Proof.
  split; [reflexivity|]. split; [reflexivity|]. split; [reflexivity|].
  exact (first_touch_caches_document (fs_with test_locators)
           (android test_locators) (py "home") (py "title") test_locators
           eq_refl eq_refl).
Defined.

(** C2, as amended: a [get_locators] that raises leaves the manager, and so
    the cache, exactly as it was.  A [get_locator] that raises leaves every
    cache entry but the one of its screen as it was, and the whole cache as
    it was when the screen was cached before the call or the document could
    not be loaded. *)
Theorem failed_lookup_cache (fs : filesystem) (self : LocatorManager)
    (screen element : str) :
  (∀ e self', get_locators fs screen self = (Raise e, self') → self' = self)
  ∧ (∀ e self', get_locator fs screen element self = (Raise e, self') →
       (∀ s, s ≠ screen →
             _locators_cache self' !! s = _locators_cache self !! s)
       ∧ (is_Some (_locators_cache self !! screen) → self' = self)
       ∧ (file_at fs (_locators_file self) = Absent
          ∨ file_at fs (_locators_file self) = Unparsable → self' = self)).
Proof.
  split.
  - intros e self'. destruct (_locators_cache self !! screen) as [entries|] eqn:Hc.
    + rewrite (get_locators_cached fs self screen entries Hc). congruence.
    + rewrite get_locators_uncached by done.
      destruct (_load_locators fs self) as [[doc|e1] self1]; [|congruence].
      destruct (contains doc screen) as [[]|]; [|congruence..].
      destruct (getitem doc screen); congruence.
  - intros e self'. destruct (_locators_cache self !! screen) as [entries|] eqn:Hc.
    + rewrite (get_locator_cached fs self screen element entries Hc).
      intros [= _ <-]. by repeat split.
    + rewrite get_locator_uncached by done. unfold _load_locators.
      destruct (file_at fs (_locators_file self)) as [| |doc] eqn:Hf.
      1-2: intros [= _ <-]; by repeat split.
      intros [= _ <-]. split; [|split].
      * intros s Hs. cbn [_locators_cache with_cache].
        by rewrite lookup_insert_ne.
      * by intros [? ?].
      * intros [?|?]; discriminate.
Qed.

(** A [get_locators] that fails on a fresh manager, and a [get_locator]
    that fails on a screen put in the cache by [set_locators]. *)
Lemma failed_lookup_cache_witness :
  (get_locators (fs_with test_locators) (py "home") (android test_locators)
   = (Raise (KeyError (screen_not_found (py "home")) None), android test_locators)
   ∧ android test_locators = android test_locators)
  ∧ (get_locator (fs_with test_locators) (py "login_screen") (py "missing")
       (seeded (py "login_screen") login_entries)
     = (Raise (KeyError (element_not_found (py "missing") (py "login_screen"))
                 (Some (KeyError (py "missing") None))),
        seeded (py "login_screen") login_entries)
     ∧ is_Some (_locators_cache (seeded (py "login_screen") login_entries)
                !! py "login_screen")
     ∧ seeded (py "login_screen") login_entries
       = seeded (py "login_screen") login_entries).
Proof.
  assert (H1 : get_locators (fs_with test_locators) (py "home")
                 (android test_locators)
               = (Raise (KeyError (screen_not_found (py "home")) None),
                  android test_locators)) by reflexivity.
  assert (H2 : get_locator (fs_with test_locators) (py "login_screen")
                 (py "missing") (seeded (py "login_screen") login_entries)
               = (Raise (KeyError (element_not_found (py "missing")
                                     (py "login_screen"))
                           (Some (KeyError (py "missing") None))),
                  seeded (py "login_screen") login_entries)).
  { rewrite (get_locator_cached _ _ _ _ login_entries) by reflexivity.
    reflexivity. }
  assert (H3 : is_Some (_locators_cache (seeded (py "login_screen") login_entries)
                        !! py "login_screen")) by (by eexists).
  split; [split; [exact H1|]|split; [exact H2|split; [exact H3|]]].
  - exact (proj1 (failed_lookup_cache (fs_with test_locators)
                    (android test_locators) (py "home") (py "x")) _ _ H1).
  - exact (proj1 (proj2 (proj2 (failed_lookup_cache (fs_with test_locators)
             (seeded (py "login_screen") login_entries) (py "login_screen")
             (py "missing")) _ _ H2)) H3).
Defined.

(** C2, the claim as it stands fails: a [get_locator] for an element that
    does not exist raises, and yet leaves an entry under the screen that was
    not in the cache before the call. *)
Lemma failed_get_locator_fills_cache :
  is_Ok (get_locator (fs_with test_locators) (py "login_screen") (py "missing")
           (android test_locators)).1 = false
  ∧ _locators_cache (android test_locators) !! py "login_screen" = None
  ∧ _locators_cache
      (get_locator (fs_with test_locators) (py "login_screen") (py "missing")
         (android test_locators)).2 !! py "login_screen"
    = Some test_locators.
Proof.
  rewrite get_locator_uncached by reflexivity. repeat split.
Qed.

(** The names of the members are upper-case ASCII: each is found under its
    own name and under its lower-case spelling. *)
Lemma LocatorType_names_any_case :
  Forall (λ nm : str * LocatorType,
            member_by_name LocatorType_members (str_upper nm.1) = Some nm.2
            ∧ member_by_name LocatorType_members (str_upper (str_lower nm.1))
              = Some nm.2)
         LocatorType_members.
Proof. repeat constructor. Qed.

(** C3, as amended: an entry whose strategy name, upper-cased, names no
    member of [LocatorType] makes [get_locator] raise, with no strategy
    substituted; what it raises is the [KeyError] with the message of a
    missing element, chained to the [KeyError] of the failed member lookup,
    not an exception of its own.  A name that upper-cases to a member's name
    resolves to that member, so ["ID"] and ["id"] both give [ID].  (Names of
    ASCII characters; the screen is one the cache holds.) *)
Theorem unknown_strategy_is_key_error (fs : filesystem) (self : LocatorManager)
    (screen element t : str) (entries locator_data : value) :
  _locators_cache self !! screen = Some entries →
  getitem entries element = Ok locator_data →
  getitem locator_data (py "type") = Ok (VStr t) →
  is_ascii t →
  match member_by_name LocatorType_members (str_upper t) with
  | None =>
      get_locator fs screen element self
      = (Raise (KeyError (element_not_found element screen)
                  (Some (KeyError (str_upper t) None))),
         self)
  | Some member =>
      ∀ v, getitem locator_data (py "value") = Ok v →
           get_locator fs screen element self
           = (Ok (LocatorType_value member, v), self)
  end
  ∧ member_by_name LocatorType_members (str_upper (py "ID")) = Some ID
  ∧ member_by_name LocatorType_members (str_upper (py "id")) = Some ID.
Proof.
  intros Hc He Ht _. split; [|split; reflexivity].
  assert (Hloc : locate entries element
                 = (member ← LocatorType_getitem (str_upper t);
                    v ← getitem locator_data (py "value");
                    Ok (LocatorType_value member, v))).
  { unfold locate. rewrite He. simpl. rewrite Ht. reflexivity. }
  unfold LocatorType_getitem in Hloc.
  destruct (member_by_name LocatorType_members (str_upper t)) as [m|].
  - intros v Hv.
    rewrite (get_locator_cached fs self screen element entries Hc), Hloc.
    simpl. rewrite Hv. reflexivity.
  - rewrite (get_locator_cached fs self screen element entries Hc), Hloc.
    reflexivity.
Qed.

(** An entry that declares ["bogus"] and one that declares ["id"]. *)
Lemma unknown_strategy_is_key_error_witness :
  (get_locator (fs_with test_locators) (py "s") (py "BOGUS")
     (seeded (py "s") bogus_entries)
   = (Raise (KeyError (element_not_found (py "BOGUS") (py "s"))
               (Some (KeyError (py "BOGUS") None))),
      seeded (py "s") bogus_entries))
  ∧ (get_locator (fs_with test_locators) (py "login_screen") (py "username")
       (seeded (py "login_screen") login_entries)
     = (Ok (LocatorType_value ID, VStr (py "username_field")),
        seeded (py "login_screen") login_entries)).
Proof.
  split.
  - refine (proj1 (unknown_strategy_is_key_error (fs_with test_locators)
             (seeded (py "s") bogus_entries) (py "s") (py "BOGUS") (py "bogus")
             bogus_entries
             (VDict [(py "type", VStr (py "bogus")); (py "value", VStr (py "x"))])
             eq_refl eq_refl eq_refl _)).
    repeat constructor.
  - refine (proj1 (unknown_strategy_is_key_error (fs_with test_locators)
             (seeded (py "login_screen") login_entries) (py "login_screen")
             (py "username") (py "id") login_entries
             (VDict [(py "type", VStr (py "id"));
                     (py "value", VStr (py "username_field"))])
             eq_refl eq_refl eq_refl _) (VStr (py "username_field")) eq_refl).
    repeat constructor.
Defined.

(** C3, the claim as it stands fails: the failure for an unknown strategy is
    not distinct from the one for a missing element.  Asked for ["BOGUS"],
    a screen whose element ["BOGUS"] declares the strategy ["bogus"] and a
    screen without any element raise the same exception, message and cause
    alike. *)
Lemma unknown_strategy_same_error :
  (get_locator (fs_with test_locators) (py "s") (py "BOGUS")
     (seeded (py "s") bogus_entries)).1
  = Raise (KeyError (element_not_found (py "BOGUS") (py "s"))
             (Some (KeyError (py "BOGUS") None)))
  ∧ (get_locator (fs_with test_locators) (py "s") (py "BOGUS")
       (seeded (py "s") (VDict []))).1
    = Raise (KeyError (element_not_found (py "BOGUS") (py "s"))
               (Some (KeyError (py "BOGUS") None))).
Proof.
  split.
  - rewrite (get_locator_cached _ _ _ _ bogus_entries) by reflexivity.
    reflexivity.
  - rewrite (get_locator_cached _ _ _ _ (VDict [])) by reflexivity.
    reflexivity.
Qed.

(** The three lookups that miss, each where its own mapping is consulted. *)
Lemma get_test_data_absent {F : Fernet} (self : DataManager) d test_name :
  _data self = VDict d → dict_get d test_name = None →
  get_test_data self test_name = Ok (VDict []).
Proof.
  intros Hd Hn. unfold get_test_data, dict_get_default. by rewrite Hd, Hn.
Qed.

Lemma get_locators_absent_screen fs self screen d :
  _locators_cache self !! screen = None →
  file_at fs (_locators_file self) = Document (VDict d) →
  dict_get d screen = None →
  get_locators fs screen self
  = (Raise (KeyError (screen_not_found screen) None), self).
Proof.
  intros Hc Hf Hd. rewrite get_locators_uncached by done.
  unfold _load_locators. rewrite Hf. cbn [contains]. rewrite Hd.
  rewrite bool_decide_eq_false_2 by (by intros [? ?]). reflexivity.
Qed.

Lemma get_locator_absent_element fs self screen element d :
  _locators_cache self !! screen = Some (VDict d) →
  dict_get d element = None →
  get_locator fs screen element self
  = (Raise (KeyError (element_not_found element screen)
              (Some (KeyError element None))),
     self).
Proof.
  intros Hc Hd. rewrite (get_locator_cached fs self screen element _ Hc).
  unfold locate. cbn [getitem]. rewrite Hd. reflexivity.
Qed.

(** C7, the code against the claim: a missing name gives an empty mapping
    from [get_test_data] and a [KeyError] from [get_locators], as claimed;
    but [get_locator] on a screen it has not cached looks the element up
    among the screens of the document.  Asked for element ["home"] of the
    existing, empty screen ["login"], it finds the screen ["home"], takes it
    for the entry and raises [AttributeError], not the [KeyError] of a
    missing element; with the screen cached by [get_locators] first, it
    raises that [KeyError]. *)
Theorem get_locator_absent_element_first_touch :
  getitem two_screens (py "login") = Ok (VDict [])
  ∧ (get_locator (fs_with two_screens) (py "login") (py "home")
       (android two_screens)).1 = Raise AttributeError
  ∧ (get_locator (fs_with two_screens) (py "login") (py "home")
       (get_locators (fs_with two_screens) (py "login") (android two_screens)).2).1
    = Raise (KeyError (element_not_found (py "home") (py "login"))
               (Some (KeyError (py "home") None)))
  ∧ (get_locators (fs_with two_screens) (py "settings") (android two_screens)).1
    = Raise (KeyError (screen_not_found (py "settings")) None)
  ∧ get_test_data
      {| data_file := py "/app/test_data.yml";
         secret_manager := toy_manager KeyA;
         _data := plain_doc |} (py "nonexistent_test")
    = Ok (VDict []).
Proof.
  split; [reflexivity|]. split; [|split; [|split]].
  - rewrite get_locator_uncached by reflexivity. reflexivity.
  - reflexivity.
  - reflexivity.
  - reflexivity.
Qed.

(** ** More of the locator store *)

(** X1: what [set_locators] puts under a screen is what both lookups use
    from then on, whatever the locators file holds and also when there is
    none: [get_locators] returns it, [get_locator] resolves the element in
    it, neither changes the manager, and the entries of the other screens
    are as they were. *)
Theorem set_locators_overrides (fs : filesystem) (self : LocatorManager)
    (screen element : str) (entries : value) :
  get_locators fs screen (set_locators screen entries self).2
  = (Ok entries, (set_locators screen entries self).2)
  ∧ get_locator fs screen element (set_locators screen entries self).2
    = (reraise screen element (locate entries element),
       (set_locators screen entries self).2)
  ∧ (∀ s, s ≠ screen →
          _locators_cache (set_locators screen entries self).2 !! s
          = _locators_cache self !! s).
Proof.
  assert (Hc : _locators_cache (set_locators screen entries self).2 !! screen
               = Some entries) by apply lookup_insert_eq.
  split; [|split].
  - by apply get_locators_cached.
  - by apply get_locator_cached.
  - intros s Hs. cbn. by rewrite lookup_insert_ne.
Qed.

(** X2: a lookup never evicts or changes what the cache holds: an entry
    that is cached before [get_locator] or [get_locators] is cached, with
    the same value, after it, whether the call returns or raises. *)
Theorem lookups_keep_entries (fs : filesystem) (self : LocatorManager)
    (screen element s : str) (v : value) :
  _locators_cache self !! s = Some v →
  _locators_cache (get_locator fs screen element self).2 !! s = Some v
  ∧ _locators_cache (get_locators fs screen self).2 !! s = Some v.
Proof.
  intros Hs. destruct (_locators_cache self !! screen) as [entries|] eqn:Hc.
  - rewrite (get_locator_cached fs self screen element entries Hc).
    rewrite (get_locators_cached fs self screen entries Hc). done.
  - assert (screen ≠ s) by congruence.
    rewrite get_locator_uncached, get_locators_uncached by done.
    destruct (_load_locators fs self) as [[doc|e] self1]; [|done].
    split; [cbn; by rewrite lookup_insert_ne|].
    destruct (contains doc screen) as [[]|]; [|done..].
    destruct (getitem doc screen); [|done].
    cbn. by rewrite lookup_insert_ne.
Qed.

Lemma lookups_keep_entries_witness :
  _locators_cache (seeded (py "login_screen") login_entries) !! py "login_screen"
  = Some login_entries
  ∧ _locators_cache
      (get_locator (fs_with two_screens) (py "home") (py "title")
         (seeded (py "login_screen") login_entries)).2 !! py "login_screen"
    = Some login_entries
  ∧ _locators_cache
      (get_locators (fs_with two_screens) (py "home")
         (seeded (py "login_screen") login_entries)).2 !! py "login_screen"
    = Some login_entries.
Proof.
  split; [reflexivity|].
  exact (lookups_keep_entries (fs_with two_screens)
           (seeded (py "login_screen") login_entries) (py "home") (py "title")
           (py "login_screen") login_entries eq_refl).
Defined.

(** A [get_locators] that returns leaves what it returns in the cache. *)
Lemma get_locators_reads_once_aux (fs : filesystem) (self self1 : LocatorManager)
    (screen : str) (entries : value) :
  get_locators fs screen self = (Ok entries, self1) →
  _locators_cache self1 !! screen = Some entries.
Proof.
  intros H. destruct (_locators_cache self !! screen) as [cached|] eqn:Hc.
  - rewrite (get_locators_cached fs self screen cached Hc) in H. congruence.
  - rewrite get_locators_uncached in H by done.
    destruct (_load_locators fs self) as [[doc|e] ?]; [|done].
    destruct (contains doc screen) as [[]|]; [|done..].
    destruct (getitem doc screen) as [x|]; [|done].
    injection H as <- <-. apply lookup_insert_eq.
Qed.

(** X3: once [get_locators] has returned the entries of a screen, it returns
    the same entries ever after without reading the file again: with any
    other content of the file system, also without the file, and leaving
    the manager as it is. *)
Theorem get_locators_reads_once (fs fs' : filesystem) (self self1 : LocatorManager)
    (screen : str) (entries : value) :
  get_locators fs screen self = (Ok entries, self1) →
  get_locators fs' screen self1 = (Ok entries, self1).
Proof.
  intros H. apply get_locators_cached.
  eapply get_locators_reads_once_aux, H.
Qed.

Lemma get_locators_reads_once_witness :
  get_locators (fs_with test_locators) (py "login_screen") (android test_locators)
  = (Ok login_entries,
     with_cache {[ py "login_screen" := login_entries ]} (android test_locators))
  ∧ get_locators {| root := py "/app"; file_at := λ _, Absent |}
      (py "login_screen")
      (with_cache {[ py "login_screen" := login_entries ]} (android test_locators))
    = (Ok login_entries,
       with_cache {[ py "login_screen" := login_entries ]} (android test_locators)).
Proof.
  assert (H : get_locators (fs_with test_locators) (py "login_screen")
                (android test_locators)
              = (Ok login_entries,
                 with_cache {[ py "login_screen" := login_entries ]}
                   (android test_locators))) by reflexivity.
  split; [exact H|].
  exact (get_locators_reads_once _ {| root := py "/app"; file_at := λ _, Absent |}
           _ _ _ _ H).
Defined.

(** X4: without a locators file, a lookup of a screen that is not cached
    raises the [FileNotFoundError] of [_load_locators], which names the
    platform and is chained to the error of [open]; [get_locator] does not
    turn it into its [KeyError], and the manager is left as it was. *)
Theorem lookups_without_file (fs : filesystem) (self : LocatorManager)
    (screen element : str) :
  _locators_cache self !! screen = None →
  file_at fs (_locators_file self) = Absent →
  ∃ cause,
    get_locator fs screen element self
    = (Raise (FileNotFoundError
                (py "Locators file for " ++ PlatformType_value (platform self)
                 ++ py " not found.") (Some cause)), self)
    ∧ get_locators fs screen self
      = (Raise (FileNotFoundError
                  (py "Locators file for " ++ PlatformType_value (platform self)
                   ++ py " not found.") (Some cause)), self).
Proof.
  intros Hc Hf. eexists.
  rewrite get_locator_uncached, get_locators_uncached by done.
  unfold _load_locators. rewrite Hf. split; reflexivity.
Qed.

Lemma lookups_without_file_witness :
  _locators_cache (LocatorManager_init (fs_with test_locators) IOS)
    !! py "login_screen" = None
  ∧ file_at (fs_with test_locators)
      (_locators_file (LocatorManager_init (fs_with test_locators) IOS)) = Absent
  ∧ ∃ cause,
      get_locator (fs_with test_locators) (py "login_screen") (py "username")
        (LocatorManager_init (fs_with test_locators) IOS)
      = (Raise (FileNotFoundError (py "Locators file for ios not found.")
                  (Some cause)),
         LocatorManager_init (fs_with test_locators) IOS)
      ∧ get_locators (fs_with test_locators) (py "login_screen")
          (LocatorManager_init (fs_with test_locators) IOS)
        = (Raise (FileNotFoundError (py "Locators file for ios not found.")
                    (Some cause)),
           LocatorManager_init (fs_with test_locators) IOS).
Proof.
  split; [reflexivity|]. split; [reflexivity|].
  exact (lookups_without_file (fs_with test_locators)
           (LocatorManager_init (fs_with test_locators) IOS)
           (py "login_screen") (py "username") eq_refl eq_refl).
Defined.

Lemma locate_raises entries element e :
  locate entries element = Raise e →
  e = TypeError ∨ e = AttributeError ∨ ∃ k, e = KeyError k None.
Proof.
  unfold locate.
  assert (Hget : ∀ obj key x, getitem obj key = Raise x →
            x = TypeError ∨ ∃ k, x = KeyError k None).
  { intros obj key x. destruct obj; simpl; try (intros [= <-]; by left).
    destruct (dict_get d key); [done|]. intros [= <-]. right. by eexists. }
  destruct (getitem entries element) as [ld|e1] eqn:E1; simpl.
  2:{ intros [= <-]. destruct (Hget _ _ _ E1) as [->|[k ->]]; eauto. }
  destruct (getitem ld (py "type")) as [ty|e2] eqn:E2; simpl.
  2:{ intros [= <-]. destruct (Hget _ _ _ E2) as [->|[k ->]]; eauto. }
  destruct (upper ty) as [name|e3] eqn:E3; simpl.
  2:{ intros [= <-]. destruct ty; simpl in E3; try discriminate;
      injection E3 as <-; auto. }
  unfold LocatorType_getitem.
  destruct (member_by_name LocatorType_members name) as [m|]; simpl.
  2:{ intros [= <-]. eauto. }
  destruct (getitem ld (py "value")) as [v|e5] eqn:E5; simpl; [done|].
  intros [= <-]. destruct (Hget _ _ _ E5) as [->|[k ->]]; eauto.
Qed.

(** X5: the exceptions of [get_locator].  On a screen the cache holds it
    raises nothing but [TypeError], [AttributeError] and [KeyError], and
    every [KeyError] that leaves it, on any screen, carries the message
    ["Element '...' not found in screen '...'"] and is chained to the bare
    [KeyError] of the lookup that failed. *)
Theorem get_locator_exceptions (fs : filesystem) (self self' : LocatorManager)
    (screen element : str) (e : exn) :
  get_locator fs screen element self = (Raise e, self') →
  (is_Some (_locators_cache self !! screen) →
   e = TypeError ∨ e = AttributeError ∨ is_KeyError e = true)
  ∧ (∀ arg cause, e = KeyError arg cause →
       arg = element_not_found element screen
       ∧ ∃ k, cause = Some (KeyError k None)).
Proof.
  assert (Hre : ∀ entries, reraise screen element (locate entries element) = Raise e →
            (e = TypeError ∨ e = AttributeError ∨ is_KeyError e = true)
            ∧ (∀ arg cause, e = KeyError arg cause →
                 arg = element_not_found element screen
                 ∧ ∃ k, cause = Some (KeyError k None))).
  { intros entries. destruct (locate entries element) as [r|x] eqn:Hl; [done|].
    destruct (locate_raises _ _ _ Hl) as [->|[->|[k ->]]]; simpl;
      intros [= <-]; (split; [auto|]); intros arg cause [= <- <-]; eauto. }
  destruct (_locators_cache self !! screen) as [entries|] eqn:Hc.
  - rewrite (get_locator_cached fs self screen element entries Hc).
    intros [= H _]. destruct (Hre _ H). auto.
  - rewrite get_locator_uncached by done. unfold _load_locators.
    destruct (file_at fs (_locators_file self)) as [| |doc].
    + intros [= <- _]. split; [by intros [? ?]|done].
    + intros [= <- _]. split; [by intros [? ?]|done].
    + intros [= H _]. destruct (Hre _ H). split; [by intros [? ?]|auto].
Qed.

Lemma get_locator_exceptions_witness :
  get_locator (fs_with test_locators) (py "s") (py "BOGUS")
    (seeded (py "s") bogus_entries)
  = (Raise (KeyError (element_not_found (py "BOGUS") (py "s"))
              (Some (KeyError (py "BOGUS") None))),
     seeded (py "s") bogus_entries)
  ∧ (is_Some (_locators_cache (seeded (py "s") bogus_entries) !! py "s") →
     KeyError (element_not_found (py "BOGUS") (py "s"))
       (Some (KeyError (py "BOGUS") None)) = TypeError
     ∨ KeyError (element_not_found (py "BOGUS") (py "s"))
         (Some (KeyError (py "BOGUS") None)) = AttributeError
     ∨ is_KeyError (KeyError (element_not_found (py "BOGUS") (py "s"))
                      (Some (KeyError (py "BOGUS") None))) = true)
  ∧ (∀ arg cause,
       KeyError (element_not_found (py "BOGUS") (py "s"))
         (Some (KeyError (py "BOGUS") None)) = KeyError arg cause →
       arg = element_not_found (py "BOGUS") (py "s")
       ∧ ∃ k, cause = Some (KeyError k None)).
Proof.
  assert (H : get_locator (fs_with test_locators) (py "s") (py "BOGUS")
                (seeded (py "s") bogus_entries)
              = (Raise (KeyError (element_not_found (py "BOGUS") (py "s"))
                          (Some (KeyError (py "BOGUS") None))),
                 seeded (py "s") bogus_entries)).
  { rewrite (get_locator_cached _ _ _ _ bogus_entries) by reflexivity.
    reflexivity. }
  split; [exact H|].
  exact (get_locator_exceptions _ _ _ _ _ _ H).
Defined.

(** X6: [get_locators] first, then [get_locator]: the lookup in two levels.
    When the document maps the screen to a mapping in which the element has
    an entry with a strategy name of a member and a target, then after
    [get_locators(screen)] on a fresh cache, [get_locator(screen, element)]
    returns the member's value and the target, and reads no file. *)
Theorem get_locators_then_get_locator (fs fs' : filesystem)
    (self : LocatorManager) (screen element t : str)
    (d es ld : list (str * value)) (member : LocatorType) (target : value) :
  _locators_cache self !! screen = None →
  file_at fs (_locators_file self) = Document (VDict d) →
  dict_get d screen = Some (VDict es) →
  dict_get es element = Some (VDict ld) →
  dict_get ld (py "type") = Some (VStr t) →
  member_by_name LocatorType_members (str_upper t) = Some member →
  dict_get ld (py "value") = Some target →
  get_locators fs screen self
  = (Ok (VDict es), with_cache (<[screen := VDict es]> (_locators_cache self)) self)
  ∧ get_locator fs' screen element (get_locators fs screen self).2
    = (Ok (LocatorType_value member, target), (get_locators fs screen self).2).
Proof.
  intros Hc Hf Hs He Ht Hm Hv.
  assert (H1 : get_locators fs screen self
               = (Ok (VDict es),
                  with_cache (<[screen := VDict es]> (_locators_cache self)) self)).
  { rewrite get_locators_uncached by done. unfold _load_locators.
    rewrite Hf. cbn [contains getitem]. rewrite Hs.
    by rewrite bool_decide_eq_true_2 by done. }
  split; [exact H1|]. rewrite H1. cbn [snd].
  rewrite (get_locator_cached fs' _ screen element (VDict es))
    by apply lookup_insert_eq.
  unfold locate. cbn [getitem]. rewrite He.
  cbn [mbind result_bind getitem]. rewrite Ht. cbn [mbind result_bind upper].
  unfold LocatorType_getitem. rewrite Hm.
  cbn [mbind result_bind]. rewrite Hv. reflexivity.
Qed.

Lemma get_locators_then_get_locator_witness :
  get_locators (fs_with test_locators) (py "login_screen") (android test_locators)
  = (Ok login_entries,
     with_cache (<[py "login_screen" := login_entries]>
                   (_locators_cache (android test_locators)))
       (android test_locators))
  ∧ get_locator {| root := py "/app"; file_at := λ _, Absent |}
      (py "login_screen") (py "password")
      (get_locators (fs_with test_locators) (py "login_screen")
         (android test_locators)).2
    = (Ok (LocatorType_value XPATH, VStr (py "//input[@type='password']")),
       (get_locators (fs_with test_locators) (py "login_screen")
          (android test_locators)).2).
Proof.
  exact (get_locators_then_get_locator (fs_with test_locators)
           {| root := py "/app"; file_at := λ _, Absent |}
           (android test_locators) (py "login_screen") (py "password")
           (py "xpath")
           [(py "login_screen", login_entries)]
           [ (py "username",
              VDict [(py "type", VStr (py "id"));
                     (py "value", VStr (py "username_field"))]);
             (py "password",
              VDict [(py "type", VStr (py "xpath"));
                     (py "value", VStr (py "//input[@type='password']"))]) ]
           [(py "type", VStr (py "xpath"));
            (py "value", VStr (py "//input[@type='password']"))]
           XPATH (VStr (py "//input[@type='password']"))
           eq_refl eq_refl eq_refl eq_refl eq_refl eq_refl eq_refl).
Defined.

(** X7: the page's own [_get_locator] gives the strategy as the document
    spells it, unchecked, where the manager's [get_locator] gives the value
    of the member it names or raises.  For a page built on a screen whose
    element declares the strategy name [t], of ASCII characters, and a
    target: [_get_locator] returns [(t, target)]; [get_locator] on the
    page's manager returns the member's value with the target when [t]
    upper-cased names a member, and raises [KeyError] when it names none. *)
Theorem page_get_locator_unchecked (fs : filesystem) (p : PlatformType)
    (screen key t : str) (page : AbstractPage) (es ld : list (str * value))
    (target : value) :
  AbstractPage_init fs p screen = Ok page →
  locators page = VDict es →
  dict_get es key = Some (VDict ld) →
  dict_get ld (py "type") = Some (VStr t) →
  is_ascii t →
  dict_get ld (py "value") = Some target →
  _get_locator page key = Ok (VStr t, target)
  ∧ get_locator fs screen key (locator_manager page)
    = (match member_by_name LocatorType_members (str_upper t) with
       | Some member => Ok (LocatorType_value member, target)
       | None => Raise (KeyError (element_not_found key screen)
                          (Some (KeyError (str_upper t) None)))
       end,
       locator_manager page).
Proof.
  intros Hinit Hl He Ht _ Hv. split.
  - unfold _get_locator. rewrite Hl. cbn [getitem]. rewrite He. simpl.
    rewrite Ht. simpl. rewrite Hv. reflexivity.
  - unfold AbstractPage_init in Hinit.
    destruct (get_locators fs screen (LocatorManager_init fs p))
      as [[entries|e] manager] eqn:Hg; [|discriminate].
    injection Hinit as <-. cbn [locators locator_manager] in *. subst entries.
    pose proof (get_locators_reads_once_aux fs _ _ _ _ Hg) as Hc.
    rewrite (get_locator_cached fs manager screen key (VDict es) Hc).
    assert (Hloc : locate (VDict es) key
                   = (member ← LocatorType_getitem (str_upper t);
                      v ← getitem (VDict ld) (py "value");
                      Ok (LocatorType_value member, v))).
    { unfold locate. cbn [getitem]. rewrite He.
      cbn [mbind result_bind getitem]. rewrite Ht. reflexivity. }
    rewrite Hloc. unfold LocatorType_getitem.
    destruct (member_by_name LocatorType_members (str_upper t));
      cbn [mbind result_bind getitem reraise is_KeyError]; [|reflexivity].
    rewrite Hv. reflexivity.
Qed.

Lemma page_get_locator_unchecked_witness :
  is_ascii (py "id")
  ∧ AbstractPage_init (fs_with test_locators) ANDROID (py "login_screen")
  = Ok {| locator_manager :=
            with_cache {[ py "login_screen" := login_entries ]}
              (android test_locators);
          locators := login_entries |}
  ∧ _get_locator
      {| locator_manager :=
           with_cache {[ py "login_screen" := login_entries ]}
             (android test_locators);
         locators := login_entries |} (py "username")
    = Ok (VStr (py "id"), VStr (py "username_field"))
  ∧ get_locator (fs_with test_locators) (py "login_screen") (py "username")
      (with_cache {[ py "login_screen" := login_entries ]} (android test_locators))
    = (Ok (LocatorType_value ID, VStr (py "username_field")),
       with_cache {[ py "login_screen" := login_entries ]} (android test_locators)).
Proof.
  assert (Ha : is_ascii (py "id")) by (repeat constructor).
  split; [exact Ha|]. split; [reflexivity|].
  exact (page_get_locator_unchecked (fs_with test_locators) ANDROID
           (py "login_screen") (py "username") (py "id") _ _
           [(py "type", VStr (py "id")); (py "value", VStr (py "username_field"))]
           (VStr (py "username_field")) eq_refl eq_refl eq_refl eq_refl Ha eq_refl).
Defined.

(** ** More of the test-data manager *)

Section DataFacts.
Context {F : Fernet}.

(** The items of a materialized mapping, key by key. *)
Lemma process_items_get (sm : SecretManager) d d' key :
  process_items sm d = Ok d' →
  match dict_get d key with
  | Some v => ∃ v', _process_secrets sm v = Ok v' ∧ dict_get d' key = Some v'
  | None => dict_get d' key = None
  end.
Proof.
  revert d'. induction d as [|[k v] d IH]; intros d'; cbn [process_items].
  - by intros [= <-].
  - destruct (_process_secrets sm v) as [v1|] eqn:Ev; [|discriminate].
    cbn [mbind result_bind].
    destruct (process_items sm d) as [r|]; [|discriminate].
    cbn [mbind result_bind]. intros [= <-]. cbn [dict_get].
    destruct (str_eqb k key); [by exists v1|]. by apply IH.
Qed.

(** Materialization turns a mapping into a mapping and nothing else into
    one. *)
Lemma process_secrets_mapping (sm : SecretManager) v v' :
  _process_secrets sm v = Ok v' →
  match v with
  | VDict d => ∃ d', v' = VDict d' ∧ process_items sm d = Ok d'
  | _ => ∀ d', v' ≠ VDict d'
  end.
Proof.
  destruct v as [| | | |s|l|d].
  1-4: by intros [= <-].
  - rewrite process_secrets_str. destruct (startswith s ENC_PREFIX).
    + destruct (decrypt sm _); [|done]. by intros [= <-].
    + by intros [= <-].
  - rewrite process_secrets_list.
    destruct (process_elements sm l); [|done]. by intros [= <-].
  - rewrite process_secrets_dict.
    destruct (process_items sm d) as [d'|]; [|done]. intros [= <-]. by exists d'.
Qed.

(** What a successful construction consists of. *)
Lemma DataManager_init_ok fs (p : FrameworkProperties) (m : DataManager) :
  DataManager_init fs p = Ok m →
  ∃ doc, file_at fs (os_path_join (root fs) (test_data_file p)) = Document doc
         ∧ SecretManager_init (encryption_key p) = Ok (secret_manager m)
         ∧ _process_secrets (secret_manager m) doc = Ok (_data m).
Proof.
  unfold DataManager_init, _load_data.
  destruct (SecretManager_init (encryption_key p)) as [sm|]; [|done].
  cbn [mbind result_bind].
  destruct (file_at fs _) as [| |doc]; [done..|].
  destruct (_process_secrets sm doc) as [data|] eqn:Hd; [|done].
  cbn [mbind result_bind]. intros [= <-]. by exists doc.
Qed.
End DataFacts.

(** X8: when the construction of a [DataManager] succeeds.  It does exactly
    when the key makes a cipher, the data file exists and parses, and every
    marked leaf of the document decrypts under that cipher. *)
Theorem DataManager_init_succeeds_iff {F : Fernet} (fs : filesystem)
    (p : FrameworkProperties) :
  is_Ok (DataManager_init fs p) = true
  ↔ ∃ sm doc,
      SecretManager_init (encryption_key p) = Ok sm
      ∧ file_at fs (os_path_join (root fs) (test_data_file p)) = Document doc
      ∧ secrets_resolve sm doc.
Proof.
  split.
  - destruct (DataManager_init fs p) as [m|] eqn:Hm; [intros _|done].
    destruct (DataManager_init_ok fs p m Hm) as (doc & Hf & Hsm & Hd).
    exists (secret_manager m), doc. repeat split; [done..|].
    eapply process_secrets_ok_resolve, Hd.
  - intros (sm & doc & Hsm & Hf & Hres).
    unfold DataManager_init, _load_data. rewrite Hsm. cbn [mbind result_bind].
    rewrite Hf. destruct (_process_secrets sm doc) as [data|e] eqn:Hd; [done|].
    apply process_secrets_raise in Hd as (q & s & Hq & Hs & Hdec).
    specialize (Hres q s Hq Hs). by rewrite Hdec in Hres.
Qed.

Lemma DataManager_init_succeeds_iff_witness :
  is_Ok (DataManager_init (fs_data secrets_doc) toy_properties) = true
  ∧ ∃ sm doc,
      SecretManager_init (encryption_key toy_properties) = Ok sm
      ∧ file_at (fs_data secrets_doc)
          (os_path_join (root (fs_data secrets_doc))
             (test_data_file toy_properties)) = Document doc
      ∧ secrets_resolve sm doc.
Proof.
  split; [reflexivity|].
  exact (proj1 (DataManager_init_succeeds_iff (fs_data secrets_doc) toy_properties)
           eq_refl).
Defined.

(** X9: test data is materialized name by name.  For a manager built from a
    document that is a mapping, [get_test_data(name)] returns what
    [_process_secrets] makes of the value the document has under [name], and
    the empty mapping when the document has no such name. *)
Theorem get_test_data_materialized {F : Fernet} (fs : filesystem)
    (p : FrameworkProperties) (m : DataManager) (d : list (str * value))
    (test_name : str) :
  DataManager_init fs p = Ok m →
  file_at fs (os_path_join (root fs) (test_data_file p)) = Document (VDict d) →
  match dict_get d test_name with
  | Some v =>
      ∃ v', _process_secrets (secret_manager m) v = Ok v'
            ∧ get_test_data m test_name = Ok v'
  | None => get_test_data m test_name = Ok (VDict [])
  end.
Proof.
  intros Hm Hf. destruct (DataManager_init_ok fs p m Hm) as (doc & Hf' & _ & Hd).
  assert (doc = VDict d) as -> by congruence.
  apply process_secrets_mapping in Hd as (d' & Hd' & Hitems).
  pose proof (process_items_get _ _ _ test_name Hitems) as Hget.
  unfold get_test_data, dict_get_default. rewrite Hd'.
  destruct (dict_get d test_name) as [v|].
  - destruct Hget as (v' & Hv & ->). by exists v'.
  - by rewrite Hget.
Qed.

Lemma get_test_data_materialized_witness :
  DataManager_init (fs_data secrets_doc) toy_properties
  = Ok {| data_file := py "/app/test_data.yml";
          secret_manager := toy_manager KeyA;
          _data :=
            VDict [ (py "plain", VStr (py "text"));
                    (py "secret", VStr (py "Hi"));
                    (py "nested", VDict [(py "secret", VStr (py "Hi"))]);
                    (py "list", VList [VStr (py "plain"); VStr (py "Hi")]) ] |}
  ∧ ∃ v', _process_secrets (toy_manager KeyA)
            (VDict [(py "secret", VStr (py "ENC[QQdIaQ==]"))]) = Ok v'
          ∧ get_test_data
              {| data_file := py "/app/test_data.yml";
                 secret_manager := toy_manager KeyA;
                 _data :=
                   VDict [ (py "plain", VStr (py "text"));
                           (py "secret", VStr (py "Hi"));
                           (py "nested", VDict [(py "secret", VStr (py "Hi"))]);
                           (py "list", VList [VStr (py "plain"); VStr (py "Hi")]) ] |}
              (py "nested") = Ok v'.
Proof.
  split; [reflexivity|].
  exact (get_test_data_materialized (fs_data secrets_doc) toy_properties _
           [ (py "plain", VStr (py "text"));
             (py "secret", VStr (py "ENC[QQdIaQ==]"));
             (py "nested", VDict [(py "secret", VStr (py "ENC[QQdIaQ==]"))]);
             (py "list", VList [VStr (py "plain"); VStr (py "ENC[QQdIaQ==]")]) ]
           (py "nested") eq_refl eq_refl).
Defined.

(** X10: a data file that is not a mapping.  When the document is anything
    but a mapping (an empty file parses to [None]) and the construction
    succeeds, [get_test_data] raises [AttributeError] for every name: the
    miss is tolerated only in a mapping. *)
Theorem get_test_data_needs_mapping {F : Fernet} (fs : filesystem)
    (p : FrameworkProperties) (m : DataManager) (doc : value) (test_name : str) :
  DataManager_init fs p = Ok m →
  file_at fs (os_path_join (root fs) (test_data_file p)) = Document doc →
  (∀ d, doc ≠ VDict d) →
  get_test_data m test_name = Raise AttributeError.
Proof.
  intros Hm Hf Hdoc. destruct (DataManager_init_ok fs p m Hm) as (doc' & Hf' & _ & Hd).
  assert (doc' = doc) as -> by congruence.
  apply process_secrets_mapping in Hd.
  unfold get_test_data, dict_get_default.
  destruct doc; try (by destruct (Hdoc d)); by destruct (_data m); try (by destruct (Hd d)).
Qed.

Lemma get_test_data_needs_mapping_witness :
  DataManager_init (fs_data VNone) toy_properties
  = Ok {| data_file := py "/app/test_data.yml";
          secret_manager := toy_manager KeyA; _data := VNone |}
  ∧ get_test_data
      {| data_file := py "/app/test_data.yml";
         secret_manager := toy_manager KeyA; _data := VNone |}
      (py "login_test") = Raise AttributeError.
Proof.
  split; [reflexivity|].
  exact (get_test_data_needs_mapping (fs_data VNone) toy_properties _ VNone
           (py "login_test") eq_refl eq_refl ltac:(discriminate)).
Defined.

(** X11: a secret from [encrypt] to the test data.  The ciphertext that
    [encrypt] returns for a plaintext, written into the document between
    ["ENC["] and ["]"], is materialized to that plaintext under the same
    key. *)
Theorem encrypted_scalar_roundtrip {F : Fernet} {L : FernetLaws F}
    (sm : SecretManager) (n : nonce) (s c : str) :
  encodable s →
  encrypt sm n s = Ok c →
  _process_secrets sm (VStr (ENC_PREFIX ++ c ++ py "]")) = Ok (VStr s).
Proof.
  intros Hs Hc.
  destruct (encrypt_transport sm n s Hs) as (b & c' & Hb & Hdec & Hc' & Hcc & Ht & Hf).
  assert (c' = c) as -> by congruence.
  rewrite process_secrets_str.
  replace (startswith (ENC_PREFIX ++ c ++ py "]") ENC_PREFIX) with true
    by (by destruct c).
  rewrite py_slice_payload.
  replace (removelast (drop 4 (ENC_PREFIX ++ c ++ py "]"))) with c.
  - unfold decrypt. rewrite Hcc. cbn [mbind result_bind]. rewrite Ht.
    cbn [mbind result_bind]. rewrite Hf, Hdec. reflexivity.
  - change (drop 4 (ENC_PREFIX ++ c ++ py "]")) with (c ++ [93]).
    by rewrite removelast_last.
Qed.

Lemma encrypted_scalar_roundtrip_witness :
  encodable (py "Hi")
  ∧ encrypt (toy_manager KeyA) 7 (py "Hi") = Ok (py "QQdIaQ==")
  ∧ _process_secrets (toy_manager KeyA) (VStr (ENC_PREFIX ++ py "QQdIaQ==" ++ py "]"))
    = Ok (VStr (py "Hi")).
Proof.
  assert (He : encodable (py "Hi"))
    by (repeat (constructor; [split; reflexivity|]); constructor).
  split; [exact He|]. split; [reflexivity|].
  exact (encrypted_scalar_roundtrip (L := toy_fernet_laws) (toy_manager KeyA) 7
           (py "Hi") (py "QQdIaQ==") He eq_refl).
Defined.

(** ** More of the cipher *)

Lemma b64_char_range v : b64_char v < 123 ∧ b64_significant (b64_char v) = true.
Proof.
  unfold b64_significant, b64_char, PAD.
  destruct (N.ltb_spec v 26); [|destruct (N.ltb_spec v 52);
    [|destruct (N.ltb_spec v 62); [|destruct (N.eqb_spec v 62)]]].
  all: split; [lia|]; apply orb_true_iff; right; apply bool_decide_eq_true;
    unfold b64_index; cmp_cases; simpl; by eexists.
Qed.

Lemma b64_significant_ascii c : b64_significant c = true → c < 128.
Proof.
  destruct (N.ltb_spec c 128) as [|Hc]; [done|]. unfold b64_significant, PAD.
  assert (b64_index c = None) as -> by (unfold b64_index; cmp_cases; done).
  destruct (N.eqb_spec c 61); [lia|].
  rewrite bool_decide_eq_false_2; [done|]. by intros [? ?].
Qed.

(** The shape of what [b64encode] produces, for any input. *)
Lemma b64encode_shape b :
  Forall (λ c, b64_significant c = true) (b64encode b)
  ∧ length (b64encode b) = (4 * ((length b + 2) / 3))%nat.
Proof.
  assert (Hpad : b64_significant PAD = true) by reflexivity.
  induction b as [|x|x y|x y z l [IH1 IH2]] using list_ind3; cbn [b64encode].
  - split; [constructor|reflexivity].
  - split; [|reflexivity]. repeat constructor; try apply b64_char_range; done.
  - split; [|reflexivity]. repeat constructor; try apply b64_char_range; done.
  - split.
    + repeat (constructor; [apply b64_char_range|]). exact IH1.
    + cbn [length]. rewrite IH2.
      replace (S (S (S (length l))) + 2)%nat with (1 * 3 + (length l + 2))%nat by lia.
      rewrite Nat.div_add_l by lia. lia.
Qed.

Lemma significant_is_ascii l :
  Forall (λ c, b64_significant c = true) l → is_ascii l.
Proof.
  intros H. eapply Forall_impl; [exact H|]. intros c. apply b64_significant_ascii.
Qed.

(** The decoding loop does not see the bytes it skips. *)
Lemma a2b_base64_filter data :
  ∀ quad_pos leftchar pads,
    a2b_base64 (List.filter b64_significant data) quad_pos leftchar pads
    = a2b_base64 data quad_pos leftchar pads.
Proof.
  induction data as [|c data IH]; intros quad_pos leftchar pads; [reflexivity|].
  cbn [List.filter]. destruct (b64_significant c) eqn:Hc.
  - cbn [a2b_base64]. destruct (c =? PAD).
    + destruct (2 <=? quad_pos)%nat; [|apply IH].
      destruct (4 <=? quad_pos + S pads)%nat; [reflexivity|apply IH].
    + destruct (b64_index c); [|apply IH].
      destruct quad_pos as [|[|[|q]]]; by rewrite ?IH.
  - cbn [a2b_base64]. unfold b64_significant in Hc.
    apply orb_false_elim in Hc as [-> Hi].
    apply bool_decide_eq_false in Hi.
    destruct (b64_index c); [|apply IH]. destruct Hi. by eexists.
Qed.

(** The bytes of a code point outside ASCII are all skipped. *)
Lemma utf8_encode_char_filter c b :
  utf8_encode_char c = Ok b →
  List.filter b64_significant b = List.filter b64_significant [c].
Proof.
  unfold utf8_encode_char.
  assert (Hhigh : ∀ x, 128 ≤ x → b64_significant x = false).
  { intros x Hx. destruct (b64_significant x) eqn:E; [|done].
    apply b64_significant_ascii in E. lia. }
  destruct (N.ltb_spec c 0x80); [by intros [= <-]|].
  cbn [List.filter]. rewrite (Hhigh c) by done.
  destruct (N.ltb_spec c 0x800).
  { intros [= <-]. cbn [List.filter]. by rewrite !Hhigh by nlia. }
  destruct (N.ltb_spec c 0x10000).
  { destruct (is_surrogate c); [done|]. intros [= <-]. cbn [List.filter].
    by rewrite !Hhigh by nlia. }
  intros [= <-]. cbn [List.filter]. by rewrite !Hhigh by nlia.
Qed.

Lemma str_encode_filter s b :
  str_encode s = Ok b →
  List.filter b64_significant b = List.filter b64_significant s.
Proof.
  revert b. induction s as [|c s IH]; intros b; cbn [str_encode].
  - by intros [= <-].
  - destruct (utf8_encode_char c) as [b1|] eqn:E1; [|done].
    cbn [mbind result_bind].
    destruct (str_encode s) as [b2|]; [|done]. cbn [mbind result_bind].
    intros [= <-]. rewrite List.filter_app.
    rewrite (utf8_encode_char_filter c b1 E1), (IH b2 eq_refl).
    change (c :: s) with ([c] ++ s). by rewrite List.filter_app.
Qed.

Lemma filter_significant l :
  Forall (λ c, b64_significant c = true) (List.filter b64_significant l).
Proof.
  induction l as [|c l IH]; cbn [List.filter]; [constructor|].
  destruct (b64_significant c) eqn:E; [by constructor|exact IH].
Qed.

(** X12: [decrypt] reads only the base64 characters of its input.  Leaving
    out every character that is neither of the alphabet nor [=] (blanks,
    line breaks, quotes, anything outside ASCII) from a string UTF-8 can
    encode does not change what [decrypt] returns or raises. *)
Theorem decrypt_skips_other_characters {F : Fernet} (sm : SecretManager)
    (c : str) :
  encodable c →
  decrypt sm (List.filter b64_significant c) = decrypt sm c.
Proof.
  intros Hc. destruct (str_encode_decode c Hc) as (b & Hb & _).
  unfold decrypt. rewrite Hb.
  rewrite str_encode_ascii by apply significant_is_ascii, filter_significant.
  cbn [mbind result_bind]. unfold b64decode.
  rewrite <- (a2b_base64_filter b), (str_encode_filter c b Hb).
  by rewrite a2b_base64_filter.
Qed.

Lemma decrypt_skips_other_characters_witness :
  encodable (py "QQdI aQ" ++ [10; 0xE9] ++ py "==")
  ∧ List.filter b64_significant (py "QQdI aQ" ++ [10; 0xE9] ++ py "==")
    = py "QQdIaQ=="
  ∧ decrypt (toy_manager KeyA) (py "QQdIaQ==")
    = decrypt (toy_manager KeyA) (py "QQdI aQ" ++ [10; 0xE9] ++ py "==").
Proof.
  assert (He : encodable (py "QQdI aQ" ++ [10; 0xE9] ++ py "=="))
    by (repeat (constructor; [split; reflexivity|]); constructor).
  split; [exact He|]. split; [reflexivity|].
  exact (decrypt_skips_other_characters (toy_manager KeyA) _ He).
Defined.

(** X13: what [encrypt] returns.  It raises nothing but [UnicodeEncodeError],
    and a ciphertext it returns is base64 text: only characters of the
    alphabet and [=], a multiple of four of them; so it holds no bracket,
    blank or quote. *)
Theorem encrypt_returns_base64 {F : Fernet} (sm : SecretManager) (n : nonce)
    (s : str) :
  match encrypt sm n s with
  | Ok c =>
      Forall (λ x, b64_significant x = true) c
      ∧ (length c `mod` 4 = 0)%nat
      ∧ ¬ 93 ∈ c ∧ ¬ 32 ∈ c ∧ ¬ 10 ∈ c
  | Raise e => e = UnicodeEncodeError
  end.
Proof.
  unfold encrypt. destruct (str_encode s) as [b|e] eqn:Hb; cbn [mbind result_bind].
  2:{ eapply str_encode_raises, Hb. }
  destruct (b64encode_shape (fernet_encrypt (fernet sm) n b)) as [Hsig Hlen].
  rewrite bytes_decode_ascii by apply significant_is_ascii, Hsig.
  split; [exact Hsig|]. split.
  - rewrite Hlen, Nat.mul_comm. apply Nat.Div0.mod_mul.
  - rewrite Forall_forall in Hsig.
    repeat split; intros Hin; by apply Hsig in Hin.
Qed.

(** X14: a ciphertext stands for one plaintext.  Two calls of [encrypt]
    under one key that return the same ciphertext were given the same
    plaintext, whatever Fernet drew for them. *)
Theorem encrypt_injective {F : Fernet} {L : FernetLaws F} (sm : SecretManager)
    (n1 n2 : nonce) (s1 s2 c : str) :
  is_str s1 → is_str s2 →
  encrypt sm n1 s1 = Ok c → encrypt sm n2 s2 = Ok c → s1 = s2.
Proof.
  assert (Henc : ∀ n s, is_str s → encrypt sm n s = Ok c →
            decrypt sm c = Ok s).
  { intros n s Hstr Hc.
    destruct (str_surrogate_split s Hstr) as [Hs|(p & x & q & -> & Hp & Hx)].
    - destruct (encrypt_transport sm n s Hs)
        as (b & c' & Hb & Hdec & Hc' & Hcc & Ht & Hf).
      assert (c' = c) as -> by congruence.
      unfold decrypt. rewrite Hcc. cbn [mbind result_bind]. rewrite Ht.
      cbn [mbind result_bind]. by rewrite Hf.
    - unfold encrypt in Hc. by rewrite str_encode_surrogate in Hc. }
  intros H1 H2 Hc1 Hc2.
  pose proof (Henc n1 s1 H1 Hc1). pose proof (Henc n2 s2 H2 Hc2). congruence.
Qed.

Lemma encrypt_injective_witness :
  is_str (py "Hi")
  ∧ encrypt (toy_manager KeyA) 7 (py "Hi") = Ok (py "QQdIaQ==")
  ∧ py "Hi" = py "Hi".
Proof.
  assert (Hs : is_str (py "Hi")) by (repeat constructor).
  split; [exact Hs|]. split; [reflexivity|].
  exact (encrypt_injective (L := toy_fernet_laws) (toy_manager KeyA) 7 7
           (py "Hi") (py "Hi") (py "QQdIaQ==") Hs Hs eq_refl eq_refl).
Defined.

(** A property of the bytes below 128, by trying each. *)
Lemma ascii_forall (P : N → bool) :
  forallb P (List.map N.of_nat (seq 0 128)) = true → ∀ c, c < 128 → P c = true.
Proof.
  intros H c Hc. rewrite forallb_forall in H. apply H.
  apply in_map_iff. exists (N.to_nat c). split; [apply N2Nat.id|].
  apply in_seq. lia.
Qed.

Lemma urlsafe_char_range c :
  b64_significant c = true →
  urlsafe_key_char (urlsafe_char c) = true
  ∧ (if urlsafe_char c =? 45 then 43
     else if urlsafe_char c =? 95 then 47 else urlsafe_char c) = c.
Proof.
  intros Hc. pose proof (b64_significant_ascii c Hc) as Hlt.
  pose proof (ascii_forall
    (λ c, implb (b64_significant c)
            (urlsafe_key_char (urlsafe_char c)
             && ((if urlsafe_char c =? 45 then 43
                  else if urlsafe_char c =? 95 then 47 else urlsafe_char c) =? c)))
    ltac:(vm_compute; reflexivity) c Hlt) as H.
  cbv beta in H. rewrite Hc in H. cbn [implb] in H.
  apply andb_true_iff in H as [H1 H2]. split; [exact H1|]. by apply N.eqb_eq.
Qed.

(** The standard encoding back from the URL-safe one. *)
Lemma urlsafe_b64encode_inj b b' :
  urlsafe_b64encode b = urlsafe_b64encode b' → b64encode b = b64encode b'.
Proof.
  unfold urlsafe_b64encode. intros H.
  assert (Hinv : ∀ l, Forall (λ c, b64_significant c = true) l →
            List.map (λ c, if c =? 45 then 43 else if c =? 95 then 47 else c)
              (List.map urlsafe_char l) = l).
  { induction 1 as [|c l Hc _ IH]; [reflexivity|]. cbn [List.map].
    rewrite IH. f_equal. by apply urlsafe_char_range. }
  rewrite <- (Hinv (b64encode b)), <- (Hinv (b64encode b'))
    by apply b64encode_shape.
  by rewrite H.
Qed.

Lemma generate_key_ok urandom :
  generate_key urandom = Ok (urlsafe_b64encode urandom)
  ∧ Forall (λ c, urlsafe_key_char c = true) (urlsafe_b64encode urandom).
Proof.
  assert (Hk : Forall (λ c, urlsafe_key_char c = true) (urlsafe_b64encode urandom)).
  { unfold urlsafe_b64encode. destruct (b64encode_shape urandom) as [Hsig _].
    induction Hsig as [|c l Hc _ IH]; constructor; [|exact IH].
    by apply urlsafe_char_range. }
  split; [|exact Hk]. unfold generate_key, Fernet_generate_key.
  apply bytes_decode_ascii. eapply Forall_impl; [exact Hk|].
  intros c Hc. unfold urlsafe_key_char in Hc.
  destruct (N.ltb_spec c 128); [done|]. revert Hc. cmp_cases; done.
Qed.

(** X15: the keys of [generate_key].  For 32 random bytes it returns, never
    raising, a string of 44 characters, each a letter, a digit, [-], [_] or
    [=]; and two calls return the same key only for the same random
    bytes. *)
Theorem generate_key_shape (urandom : bytes) :
  is_bytes urandom → length urandom = 32%nat →
  ∃ key, generate_key urandom = Ok key
         ∧ length key = 44%nat
         ∧ Forall (λ c, urlsafe_key_char c = true) key
         ∧ ∀ urandom', is_bytes urandom' →
             generate_key urandom' = Ok key → urandom' = urandom.
Proof.
  intros Hb Hlen. destruct (generate_key_ok urandom) as [Hk Hchars].
  exists (urlsafe_b64encode urandom). split; [exact Hk|]. split; [|split].
  - unfold urlsafe_b64encode. rewrite length_map.
    destruct (b64encode_shape urandom) as [_ ->]. by rewrite Hlen.
  - exact Hchars.
  - intros urandom' Hb' Hk'.
    destruct (generate_key_ok urandom') as [Hk'' _].
    assert (Heq : urlsafe_b64encode urandom' = urlsafe_b64encode urandom)
      by congruence.
    apply urlsafe_b64encode_inj in Heq.
    pose proof (b64decode_b64encode urandom Hb) as H1.
    pose proof (b64decode_b64encode urandom' Hb') as H2.
    rewrite Heq in H2. congruence.
Qed.

Lemma generate_key_shape_witness :
  is_bytes (replicate 32 7)
  ∧ length (replicate 32 7 : bytes) = 32%nat
  ∧ ∃ key, generate_key (replicate 32 7) = Ok key
           ∧ length key = 44%nat
           ∧ Forall (λ c, urlsafe_key_char c = true) key
           ∧ ∀ urandom', is_bytes urandom' →
               generate_key urandom' = Ok key → urandom' = replicate 32 7.
Proof.
  assert (Hb : is_bytes (replicate 32 7)) by (repeat constructor).
  split; [exact Hb|]. split; [reflexivity|].
  exact (generate_key_shape (replicate 32 7) Hb eq_refl).
Defined.

(** ** The command line *)

Lemma encrypt_raises {F : Fernet} (sm : SecretManager) n s e :
  encrypt sm n s = Raise e → e = UnicodeEncodeError.
Proof.
  unfold encrypt. destruct (str_encode s) as [b|e1] eqn:Hb; cbn [mbind result_bind].
  - rewrite bytes_decode_ascii; [done|].
    apply significant_is_ascii, b64encode_shape.
  - intros [= <-]. eapply str_encode_raises, Hb.
Qed.

Lemma tagged_fernet_laws : FernetLaws tagged_fernet.
Proof.
  split.
  - intros k n m Hm. repeat constructor; [apply N.mod_lt; lia..|exact Hm].
  - intros k n m _. simpl. by rewrite N.eqb_refl.
Qed.

Section MainFacts.
Context {F : Fernet}.
Variable exn_str : exn → str.
Variable print_raises : list (stream * str) → stream → str → option exn.

(** [main] with a key, in the two modes, by what the one [print] of the
  [try] statement does. *)
Lemma main_with_key (k : str) (sm : SecretManager) (decrypting : bool)
  (text shown : str) urandom n :
k ≠ [] → SecretManager_init k = Ok sm →
(if decrypting
 then ∃ s, decrypt sm text = Ok s ∧ shown = py "Decrypted text: " ++ s
 else ∃ c, encrypt sm n text = Ok c ∧ shown = py "Encrypted text: " ++ c) →
(print_raises [] stdout shown = None →
 main exn_str print_raises
   (Parsed {| args_key := Some k; args_text := text;
              args_decrypt := decrypting |}) urandom n
 = ([(stdout, shown)], Returned))
∧ (∀ e, print_raises [] stdout shown = Some e →
        is_ValueError e = true →
        print_raises [] stderr (py "Error: " ++ exn_str e) = None →
        main exn_str print_raises
          (Parsed {| args_key := Some k; args_text := text;
                     args_decrypt := decrypting |}) urandom n
        = ([(stderr, py "Error: " ++ exn_str e)], SysExit 1)).
Proof.
intros Hk Hsm Hshown. destruct k as [|x k]; [done|].
assert (Htry : main_try print_raises
                 {| args_key := @Some str (x :: k); args_text := text;
                    args_decrypt := decrypting |} (x :: k) n []
               = print print_raises stdout shown []).
{ unfold main_try, io_bind, io_lift. rewrite Hsm.
  cbn [args_key args_text args_decrypt key_given negb].
  destruct decrypting.
  - destruct Hshown as (s & -> & ->). reflexivity.
  - destruct Hshown as (c & -> & ->). reflexivity. }
split.
- intros Hp. unfold main. cbn [args_key args_decrypt key_given negb andb].
  rewrite andb_false_r. cbn [default from_option]. unfold id.
  rewrite Htry. unfold print. by rewrite Hp.
- intros e Hp He Herr. unfold main.
  cbn [args_key args_decrypt key_given negb andb].
  rewrite andb_false_r. cbn [default from_option]. unfold id.
  rewrite Htry. unfold print. rewrite Hp, He. cbn [orb]. by rewrite Herr.
Qed.

(** What the [try] statement of [main] comes to. *)
Lemma main_try_outcome (args : Namespace) (key : str) (n : nonce) :
(∀ k e, Fernet_new k = Raise e → is_ValueError e = true) →
(∀ out line e, print_raises out stdout line = Some e → is_ValueError e = true) →
(∃ line rest,
   main_try print_raises args key n [] = (Ok tt, line :: rest)
   ∧ Forall (λ l, l.1 = stdout) (line :: rest) ∧ (length rest ≤ 1)%nat)
∨ (∃ e printed,
     main_try print_raises args key n [] = (Raise e, printed)
     ∧ is_ValueError e || is_InvalidToken e = true
     ∧ Forall (λ l, l.1 = stdout) printed ∧ (length printed ≤ 1)%nat).
Proof.
intros Hnew Hout.
assert (Hv : ∀ out line e, print_raises out stdout line = Some e →
               is_ValueError e || is_InvalidToken e = true)
  by (intros out line e H; by rewrite (Hout _ _ _ H)).
unfold main_try, io_bind, io_lift, SecretManager_init.
destruct (Fernet_new key) as [f|e] eqn:Hf; cbn [mbind result_bind].
2:{ right. exists e, []. rewrite (Hnew key e Hf).
    repeat split; [constructor|simpl; lia]. }
destruct (args_decrypt args).
- destruct (decrypt _ (args_text args)) as [s|e] eqn:Hd.
  + unfold print. destruct (print_raises [] stdout _) as [e|] eqn:Hp.
    * right. exists e, []. rewrite (Hv _ _ _ Hp).
      repeat split; [constructor|simpl; lia].
    * left. eexists _, []. split; [reflexivity|].
      split; [repeat constructor|simpl; lia].
  + right. exists e, [].
    split; [reflexivity|]. split; [|split; [constructor|simpl; lia]].
    by destruct (decrypt_raises _ _ _ Hd) as [-> | [-> | [-> | ->]]].
- destruct (encrypt _ n (args_text args)) as [c|e] eqn:Hc.
  + destruct (negb (key_given (args_key args))).
    * unfold print.
      destruct (print_raises [] stdout (py "Generated key: " ++ key))
        as [e|] eqn:Hp.
      -- right. exists e, []. rewrite (Hv _ _ _ Hp).
         repeat split; [constructor|simpl; lia].
      -- cbn [app].
         destruct (print_raises [_] stdout _) as [e|] eqn:Hp2.
         ++ right. exists e, [(stdout, py "Generated key: " ++ key)].
            rewrite (Hv _ _ _ Hp2).
            repeat split; [repeat constructor|simpl; lia].
         ++ left. eexists _, [_]. split; [reflexivity|].
            split; [repeat constructor|simpl; lia].
    * unfold print. destruct (print_raises [] stdout _) as [e|] eqn:Hp.
      -- right. exists e, []. rewrite (Hv _ _ _ Hp).
         repeat split; [constructor|simpl; lia].
      -- left. eexists _, []. split; [reflexivity|].
         split; [repeat constructor|simpl; lia].
  + right. exists e, []. rewrite (encrypt_raises _ _ _ _ Hc).
    repeat split; [constructor|simpl; lia].
Qed.
End MainFacts.

(** X16: a secret through the command line and back.  With a key that
    Fernet accepts and a text UTF-8 can encode, [encrypt] returns a
    ciphertext, and a run in encrypt mode whose [print] succeeds prints one
    line, that ciphertext, and returns; a run in decrypt mode with the same
    key on that ciphertext prints the text and returns when its [print]
    succeeds, and when [print] raises a [ValueError] (standard output has
    no encoding for the text) it prints the error to standard error instead
    and exits with status 1. *)
Theorem main_roundtrip {F : Fernet} {L : FernetLaws F} (exn_str : exn → str)
    (print_raises : list (stream * str) → stream → str → option exn)
    (k s : str) (sm : SecretManager) (urandom urandom' : bytes) (n n' : nonce) :
  k ≠ [] → SecretManager_init k = Ok sm → encodable s →
  ∃ c,
    encrypt sm n s = Ok c
    ∧ (print_raises [] stdout (py "Encrypted text: " ++ c) = None →
       main exn_str print_raises
         (Parsed {| args_key := Some k; args_text := s; args_decrypt := false |})
         urandom n
       = ([(stdout, py "Encrypted text: " ++ c)], Returned))
    ∧ (print_raises [] stdout (py "Decrypted text: " ++ s) = None →
       main exn_str print_raises
         (Parsed {| args_key := Some k; args_text := c; args_decrypt := true |})
         urandom' n'
       = ([(stdout, py "Decrypted text: " ++ s)], Returned))
    ∧ (∀ e, print_raises [] stdout (py "Decrypted text: " ++ s) = Some e →
            is_ValueError e = true →
            print_raises [] stderr (py "Error: " ++ exn_str e) = None →
            main exn_str print_raises
              (Parsed {| args_key := Some k; args_text := c;
                         args_decrypt := true |}) urandom' n'
            = ([(stderr, py "Error: " ++ exn_str e)], SysExit 1)).
Proof.
  intros Hk Hsm Hs.
  destruct (encrypt_transport sm n s Hs) as (b & c & Hb & Hdec & Hc & Hcc & Ht & Hf).
  assert (Hd : decrypt sm c = Ok s).
  { unfold decrypt. rewrite Hcc. cbn [mbind result_bind]. rewrite Ht.
    cbn [mbind result_bind]. by rewrite Hf. }
  exists c. split; [exact Hc|].
  destruct (main_with_key exn_str print_raises k sm false s
              (py "Encrypted text: " ++ c) urandom n Hk Hsm) as [Henc _];
    [by exists c|].
  destruct (main_with_key exn_str print_raises k sm true c
              (py "Decrypted text: " ++ s) urandom' n' Hk Hsm) as [Hdec1 Hdec2];
    [by exists s|].
  split; [exact Henc|]. split; [exact Hdec1|exact Hdec2].
Qed.

Lemma main_roundtrip_witness :
  py "A" ≠ []
  ∧ SecretManager_init (py "A") = Ok (toy_manager KeyA)
  ∧ encodable (py "Hi")
  ∧ ∃ c,
      encrypt (toy_manager KeyA) 7 (py "Hi") = Ok c
      ∧ main (λ _, []) (λ _ _ _, None)
          (Parsed {| args_key := Some (py "A"); args_text := py "Hi";
                     args_decrypt := false |}) [] 7
        = ([(stdout, py "Encrypted text: " ++ c)], Returned)
      ∧ main (λ _, []) (λ _ _ _, None)
          (Parsed {| args_key := Some (py "A"); args_text := c;
                     args_decrypt := true |}) [] 7
        = ([(stdout, py "Decrypted text: " ++ py "Hi")], Returned).
Proof.
  assert (He : encodable (py "Hi"))
    by (repeat (constructor; [split; reflexivity|]); constructor).
  split; [discriminate|]. split; [reflexivity|]. split; [exact He|].
  destruct (main_roundtrip (L := toy_fernet_laws) (λ _, []) (λ _ _ _, None)
              (py "A") (py "Hi") (toy_manager KeyA) [] [] 7 7
              ltac:(discriminate) eq_refl He) as (c & Hc & Henc & Hdec & _).
  exists c. split; [exact Hc|]. split; [exact (Henc eq_refl)|exact (Hdec eq_refl)].
Defined.

(** X17: the key that [main] generates.  Without a key (none, or the empty
    string) a run in encrypt mode whose writes to standard output succeed
    prints two lines, the key made of the 32 random bytes and the
    ciphertext under that key; a run in decrypt mode with the printed key
    on the printed ciphertext prints the text. *)
Theorem main_generates_key {F : Fernet} {L : FernetLaws F} (exn_str : exn → str)
    (print_raises : list (stream * str) → stream → str → option exn)
    (no_key : option str) (s : str) (sm : SecretManager)
    (urandom urandom' : bytes) (n n' : nonce) :
  key_given no_key = false →
  length urandom = 32%nat →
  SecretManager_init (urlsafe_b64encode urandom) = Ok sm →
  encodable s →
  (∀ out line, print_raises out stdout line = None) →
  ∃ c,
    main exn_str print_raises
      (Parsed {| args_key := no_key; args_text := s; args_decrypt := false |})
      urandom n
    = ([(stdout, py "Generated key: " ++ urlsafe_b64encode urandom);
        (stdout, py "Encrypted text: " ++ c)], Returned)
    ∧ main exn_str print_raises
        (Parsed {| args_key := Some (urlsafe_b64encode urandom);
                   args_text := c; args_decrypt := true |}) urandom' n'
      = ([(stdout, py "Decrypted text: " ++ s)], Returned).
Proof.
  intros Hno Hlen Hsm Hs Hout.
  destruct (encrypt_transport sm n s Hs) as (b & c & Hb & Hdec & Hc & Hcc & Ht & Hf).
  exists c. split.
  - unfold main. cbn [args_key args_text args_decrypt andb].
    rewrite Hno. cbn [negb]. rewrite (proj1 (generate_key_ok urandom)).
    unfold main_try, io_bind, io_lift. rewrite Hsm.
    cbn [args_key args_text args_decrypt]. rewrite Hc, Hno. cbn [negb].
    unfold print. by rewrite !Hout.
  - apply (main_with_key exn_str print_raises _ sm true c _ urandom' n');
      [|exact Hsm| |apply Hout].
    + intros Hnil. apply (f_equal length) in Hnil.
      unfold urlsafe_b64encode in Hnil. rewrite length_map in Hnil.
      destruct (b64encode_shape urandom) as [_ Hl]. rewrite Hl, Hlen in Hnil.
      discriminate.
    + exists s. split; [|reflexivity].
      unfold decrypt. rewrite Hcc. cbn [mbind result_bind]. rewrite Ht.
      cbn [mbind result_bind]. by rewrite Hf.
Qed.

Lemma main_generates_key_witness :
  key_given (Some []) = false
  ∧ length (replicate 32 7 : bytes) = 32%nat
  ∧ ∃ c,
      main (F := tagged_fernet) (λ _, []) (λ _ _ _, None)
        (Parsed {| args_key := Some []; args_text := py "Hi";
                   args_decrypt := false |})
        (replicate 32 7) (7 : N)
      = ([(stdout, py "Generated key: " ++ urlsafe_b64encode (replicate 32 7));
          (stdout, py "Encrypted text: " ++ c)], Returned)
      ∧ main (F := tagged_fernet) (λ _, []) (λ _ _ _, None)
          (Parsed {| args_key := Some (urlsafe_b64encode (replicate 32 7));
                     args_text := c; args_decrypt := true |}) [] (7 : N)
        = ([(stdout, py "Decrypted text: " ++ py "Hi")], Returned).
Proof.
  split; [reflexivity|]. split; [reflexivity|].
  refine (main_generates_key (F := tagged_fernet) (L := tagged_fernet_laws)
            (λ _, []) (λ _ _ _, None) (Some []) (py "Hi")
            (@Build_SecretManager tagged_fernet (urlsafe_b64encode (replicate 32 7)))
            (replicate 32 7) [] (7 : N) (7 : N) eq_refl eq_refl eq_refl _
            (λ _ _, eq_refl)).
  repeat (constructor; [split; reflexivity|]); constructor.
Defined.

(** X18: how [main] ends.  When [parse_args] exits (status 2 for a command
    line it refuses, status 0 after the help text), the run ends with that
    exit.  Otherwise, provided the constructor of Fernet and the writes to
    standard output raise nothing but [ValueError]s and the writes to
    standard error succeed, the run either returns, having printed one or
    two lines, all to standard output, or exits with status 1, its last
    line the one line on standard error, after at most one line on standard
    output; no exception leaves it.  Decrypt mode without a key, or with
    the empty string for one, exits that way before any cipher is made. *)
Theorem main_endings {F : Fernet} (exn_str : exn → str)
    (print_raises : list (stream * str) → stream → str → option exn)
    (parse_args : parsed) (urandom : bytes) (n : nonce) :
  (∀ k e, Fernet_new k = Raise e → is_ValueError e = true) →
  (∀ out line e, print_raises out stdout line = Some e → is_ValueError e = true) →
  (∀ out line, print_raises out stderr line = None) →
  match parse_args with
  | ParserExit status written =>
      main exn_str print_raises parse_args urandom n = (written, SysExit status)
  | Parsed args =>
      ((∃ line rest,
          main exn_str print_raises parse_args urandom n = (line :: rest, Returned)
          ∧ Forall (λ l, l.1 = stdout) (line :: rest)
          ∧ (length rest ≤ 1)%nat)
       ∨ ∃ printed msg,
           main exn_str print_raises parse_args urandom n
           = (printed ++ [(stderr, msg)], SysExit 1)
           ∧ Forall (λ l, l.1 = stdout) printed
           ∧ (length printed ≤ 1)%nat)
      ∧ (args_decrypt args = true → key_given (args_key args) = false →
         main exn_str print_raises parse_args urandom n
         = ([(stderr, py "Error: Decryption requires a key")], SysExit 1))
  end.
Proof.
  intros Hnew Hout Herr. destruct parse_args as [args|status written];
    [|reflexivity].
  split.
  2:{ intros Hd Hk. unfold main, print. by rewrite Hd, Hk, Herr. }
  unfold main.
  destruct (args_decrypt args && negb (key_given (args_key args))) eqn:Hfirst.
  { right. unfold print. rewrite Herr. eexists [], _.
    split; [reflexivity|]. split; [constructor|simpl; lia]. }
  assert (Hkey : ∃ key, (if key_given (args_key args)
                         then Ok (default [] (args_key args))
                         else generate_key urandom) = Ok key).
  { destruct (key_given (args_key args)); [by eexists|].
    rewrite (proj1 (generate_key_ok urandom)). by eexists. }
  destruct Hkey as [key ->].
  destruct (main_try_outcome print_raises args key n Hnew Hout)
    as [(line & rest & -> & Hall & Hlen)|(e & printed & -> & He & Hall & Hlen)].
  - left. by exists line, rest.
  - right. rewrite He. unfold print. rewrite Herr. by eexists printed, _.
Qed.

Lemma main_endings_witness :
  (∀ k e, toy_new k = Raise e → is_ValueError e = true)
  ∧ main (λ _, []) (λ _ _ _, None)
      (Parsed {| args_key := Some []; args_text := py "QQdIaQ==";
                 args_decrypt := true |}) [] 7
    = ([(stderr, py "Error: Decryption requires a key")], SysExit 1)
  ∧ main (λ _, []) (λ _ _ _, None)
      (ParserExit 2 [(stderr, py "usage: encrypt.py [-h] [--key KEY] --text TEXT [--decrypt]")])
      [] 7
    = ([(stderr, py "usage: encrypt.py [-h] [--key KEY] --text TEXT [--decrypt]")],
       SysExit 2).
Proof.
  assert (H : ∀ k e, toy_new k = Raise e → is_ValueError e = true).
  { intros k e. unfold toy_new.
    destruct (str_eqb k (py "A")); [done|].
    destruct (str_eqb k (py "B")); [done|]. by intros [= <-]. }
  split; [exact H|]. split.
  - exact (proj2 (main_endings (F := toy_fernet) (λ _, []) (λ _ _ _, None)
                    (Parsed {| args_key := Some []; args_text := py "QQdIaQ==";
                               args_decrypt := true |}) [] 7 H
                    ltac:(discriminate) (λ _ _, eq_refl)) eq_refl eq_refl).
  - exact (main_endings (F := toy_fernet) (λ _, []) (λ _ _ _, None)
             (ParserExit 2 [(stderr, py "usage: encrypt.py [-h] [--key KEY] --text TEXT [--decrypt]")])
             [] 7 H ltac:(discriminate) (λ _ _, eq_refl)).
Defined.

(** ** The driver factory *)

Lemma registry_get_set d key v key' :
  registry_get (registry_set d key v) key'
  = if bool_decide (key = key') then Some v else registry_get d key'.
Proof.
  induction d as [|[k x] d IH]; cbn [registry_set registry_get].
  - reflexivity.
  - destruct (bool_decide_reflect (k = key)) as [->|Hk]; cbn [registry_get].
    + by destruct (bool_decide (key = key')).
    + rewrite IH. destruct (bool_decide_reflect (k = key')) as [->|]; [|done].
      by rewrite bool_decide_eq_false_2 by congruence.
Qed.

(** Every name of [ProviderType] stands for the one member [BITBAR]. *)
Lemma ProviderType_one_member name m :
  enum_getattr ProviderType name = Some m →
  m = {| member_name := py "BITBAR"; member_value := py "test" |}.
Proof.
  unfold enum_getattr, ProviderType. cbn [enum_value_of].
  destruct (str_eqb (py "BITBAR") name); [by intros [= <-]|].
  destruct (str_eqb (py "LOCAL") name); [by intros [= <-]|].
  destruct (str_eqb (py "SAUCELABS") name); [by intros [= <-]|]. done.
Qed.

(** X19: what [create_driver] chooses.  The three names of [ProviderType]
    carry one value and so are one member; the four registrations of the
    constructor fall on two keys, the later ones replacing the local
    drivers.  For a factory of execution properties with any provider of
    [ProviderType]: an application type other than [MOBILE_NATIVE] raises
    [ValueError]; otherwise Android gets the BitBar driver and iOS the Sauce
    driver whatever the provider, every other platform raises [ValueError],
    and [NotImplementedError] is never raised. *)
Theorem create_driver_table (R : Type)
    (get_driver : driver_class → AppiumProperties → R)
    (ep : ExecutionProperties) (properties : AppiumProperties) (name : str) :
  enum_getattr ProviderType name = Some (provider ep) →
  ∃ factory,
    WebDriverFactory_init ep = Some factory
    ∧ length (driver_classes factory) = 2%nat
    ∧ create_driver R get_driver factory properties
      = match application_type ep with
        | MOBILE_NATIVE =>
            match appium_platform properties with
            | ANDROID => Session (get_driver RemoteBitBarWebDriver properties)
            | IOS => Session (get_driver RemoteSauceWebDriver properties)
            | p => Raised_ValueError
                     (py "Unsupported platform: " ++ PlatformType_str p)
            end
        | a => Raised_ValueError
                 (py "Unsupported application type: " ++ ApplicationType_str a)
        end.
Proof.
  intros Hp. apply ProviderType_one_member in Hp.
  eexists. split; [reflexivity|]. split; [reflexivity|].
  unfold create_driver. cbn [execution_properties driver_classes register_driver].
  rewrite Hp. destruct (application_type ep); [reflexivity| |reflexivity].
  destruct (appium_platform properties); reflexivity.
Qed.

Lemma create_driver_table_witness :
  enum_getattr ProviderType (py "LOCAL")
  = Some {| member_name := py "BITBAR"; member_value := py "test" |}
  ∧ ∃ factory,
      WebDriverFactory_init
        {| application_type := MOBILE_NATIVE;
           provider := {| member_name := py "BITBAR"; member_value := py "test" |};
           log_level := py "INFO"; test_grep := []; test_spec := [] |}
      = Some factory
      ∧ length (driver_classes factory) = 2%nat
      ∧ create_driver driver_class (λ cls _, cls) factory
          {| appium_platform := ANDROID; platform_version := []; url := [];
             application_id := []; application_launch_activity := [];
             device_udid := []; device_name := [];
             bitbar_options := {| bitbar_api_key := []; bitbar_app_id := [];
                                  bitbar_project := []; bitbar_testrun := [] |};
             saucelabs_options := {| saucelabs_name := []; saucelabs_username := [];
                                     saucelabs_access_key := [] |} |}
        = Session RemoteBitBarWebDriver.
Proof.
  split; [reflexivity|].
  exact (create_driver_table driver_class (λ cls _, cls)
           {| application_type := MOBILE_NATIVE;
              provider := {| member_name := py "BITBAR"; member_value := py "test" |};
              log_level := py "INFO"; test_grep := []; test_spec := [] |}
           {| appium_platform := ANDROID; platform_version := []; url := [];
              application_id := []; application_launch_activity := [];
              device_udid := []; device_name := [];
              bitbar_options := {| bitbar_api_key := []; bitbar_app_id := [];
                                   bitbar_project := []; bitbar_testrun := [] |};
              saucelabs_options := {| saucelabs_name := []; saucelabs_username := [];
                                      saucelabs_access_key := [] |} |}
           (py "LOCAL") eq_refl).
Defined.

(** X20: [register_driver] and [create_driver].  On any factory for native
    mobile applications, the class registered for a platform and the
    factory's provider is the one [create_driver] opens the session with for
    properties of that platform, replacing what was registered for them
    before; what is registered for other keys is as it was. *)
Theorem register_then_create (R : Type)
    (get_driver : driver_class → AppiumProperties → R)
    (self : WebDriverFactory) (key : PlatformType) (cls : driver_class)
    (properties : AppiumProperties) :
  application_type (execution_properties self) = MOBILE_NATIVE →
  appium_platform properties = key →
  create_driver R get_driver
    (register_driver self MOBILE_NATIVE key
       (provider (execution_properties self)) cls) properties
  = Session (get_driver cls properties)
  ∧ ∀ other,
      other ≠ (MOBILE_NATIVE, key, provider (execution_properties self)) →
      registry_get
        (driver_classes
           (register_driver self MOBILE_NATIVE key
              (provider (execution_properties self)) cls)) other
      = registry_get (driver_classes self) other.
Proof.
  intros Ha Hk. split.
  - unfold create_driver. cbn [execution_properties driver_classes register_driver].
    rewrite Ha, Hk. cbn [negb]. rewrite bool_decide_eq_true_2 by done. cbn [negb].
    rewrite registry_get_set. by rewrite bool_decide_eq_true_2.
  - intros other Ho. cbn [driver_classes register_driver].
    rewrite registry_get_set. by rewrite bool_decide_eq_false_2.
Qed.

Lemma register_then_create_witness :
  create_driver driver_class (λ cls _, cls)
    (register_driver
       {| execution_properties :=
            {| application_type := MOBILE_NATIVE;
               provider := {| member_name := py "BITBAR"; member_value := py "test" |};
               log_level := py "INFO"; test_grep := []; test_spec := [] |};
          driver_classes := [] |}
       MOBILE_NATIVE WINDOWS
       {| member_name := py "BITBAR"; member_value := py "test" |}
       LocalAndroidWebDriver)
    {| appium_platform := WINDOWS; platform_version := []; url := [];
       application_id := []; application_launch_activity := [];
       device_udid := []; device_name := [];
       bitbar_options := {| bitbar_api_key := []; bitbar_app_id := [];
                            bitbar_project := []; bitbar_testrun := [] |};
       saucelabs_options := {| saucelabs_name := []; saucelabs_username := [];
                               saucelabs_access_key := [] |} |}
  = Session LocalAndroidWebDriver.
Proof.
  exact (proj1 (register_then_create driver_class (λ cls _, cls)
           {| execution_properties :=
                {| application_type := MOBILE_NATIVE;
                   provider := {| member_name := py "BITBAR";
                                  member_value := py "test" |};
                   log_level := py "INFO"; test_grep := []; test_spec := [] |};
              driver_classes := [] |}
           WINDOWS LocalAndroidWebDriver
           {| appium_platform := WINDOWS; platform_version := []; url := [];
              application_id := []; application_launch_activity := [];
              device_udid := []; device_name := [];
              bitbar_options := {| bitbar_api_key := []; bitbar_app_id := [];
                                   bitbar_project := []; bitbar_testrun := [] |};
              saucelabs_options := {| saucelabs_name := []; saucelabs_username := [];
                                      saucelabs_access_key := [] |} |}
           eq_refl eq_refl)).
Defined.

(** ** Test data without secrets *)

(** X21: a data file without markers is served as it is.  When the key makes
    a cipher and the document holds no string that starts with ["ENC["], the
    construction succeeds, [get_all_test_data] returns the document itself
    and [get_test_data] looks the name up in it; the cipher is never
    asked. *)
Theorem plain_document_served {F : Fernet} (fs : filesystem)
    (p : FrameworkProperties) (sm : SecretManager) (doc : value) :
  SecretManager_init (encryption_key p) = Ok sm →
  file_at fs (os_path_join (root fs) (test_data_file p)) = Document doc →
  has_marker doc = false →
  ∃ m, DataManager_init fs p = Ok m
       ∧ get_all_test_data m = doc
       ∧ ∀ test_name,
           get_test_data m test_name = dict_get_default doc test_name (VDict []).
Proof.
  intros Hk Hf Hm. unfold DataManager_init, _load_data.
  rewrite Hk. cbn [mbind result_bind]. rewrite Hf.
  rewrite (process_secrets_identity sm doc Hm). cbn [mbind result_bind].
  eexists. split; [reflexivity|]. split; reflexivity.
Qed.

Lemma plain_document_served_witness :
  ∃ m, DataManager_init (fs_data plain_doc) toy_properties = Ok m
       ∧ get_all_test_data m = plain_doc
       ∧ ∀ test_name,
           get_test_data m test_name
           = dict_get_default plain_doc test_name (VDict []).
Proof.
  exact (plain_document_served (fs_data plain_doc) toy_properties
           (toy_manager KeyA) plain_doc eq_refl eq_refl eq_refl).
Defined.
